(** * tesseract-wasm: the OCR session engine

    A shallow embedding of the native engine (class [OCREngine] of
    [src/lib.cpp]) and of its JavaScript wrapper (class [OCREngine] of
    the ES module), with the properties of the session life cycle, of
    the memoised analysis passes, of progress reporting, of box
    extraction and of the orientation rule.

    - [Fp]         C++ [float] and [double]: IEEE 754 binary32 and binary64;
    - [Cpp_types]  the structs and enums of [lib.cpp];
    - [Backend]    Tesseract and Leptonica as a test double: the state of
                   one [TessBaseAPI], its region iterator, and a record of
                   the answers that depend on model and pixels;
    - [Emscripten] callbacks crossing the binding, and what they cause;
    - [Cpp]        the native engine;
    - [Js]         the wrapper class, its guards, and sequences of calls;
    - [Fixture]    a concrete backend and the inputs of the examples;
    - [Spec]       what the specification says, as definitions;
    - [Contract]   vocabulary for the properties of whole calls;
    - then the lemmas: rounding, box extraction, single calls, and the
      properties of the engine. *)

From Stdlib Require Import ZArith List String Ascii Bool Arith Lia.
From Stdlib Require Import Floats.SpecFloat.
From Equations Require Import Equations.
From Equations.Prop Require Import Logic.
Import ListNotations.
Open Scope Z_scope.

(* ================================================================== *)
(** * C++ floating point *)
(* ================================================================== *)

Module Fp.

(** [float] is binary32 and [double] is binary64; both are carried by
    [spec_float], whose operations take the precision and the exponent
    bound of the format. *)
Definition float := spec_float.
Definition double := spec_float.

Definition float_prec : Z := 24.
Definition float_emax : Z := 128.
Definition double_prec : Z := 53.
Definition double_emax : Z := 1024.

(** Conversion of a value to the format [(prec, emax)], rounding to
    nearest even. *)
Definition round_to (prec emax : Z) (x : spec_float) : spec_float :=
  match x with
  | S754_finite s m e => binary_round prec emax s m e
  | _ => x
  end.

(** The implicit conversions [float -> double] and [double -> float]. *)
Definition double_of_float (x : float) : double :=
  round_to double_prec double_emax x.
Definition float_of_double (x : double) : float :=
  round_to float_prec float_emax x.

(** The implicit conversion [int -> float]. *)
Definition float_of_int (n : Z) : float :=
  binary_normalize float_prec float_emax n 0 false.

Definition fabs (x : float) : float := SFabs x.
Definition fsub (x y : float) : float := SFsub float_prec float_emax x y.
Definition dmul (x y : double) : double := SFmul double_prec double_emax x y.

(** Comparisons; each is false when an operand is a NaN. *)
Definition lt (x y : spec_float) : bool := SFltb x y.
Definition gt (x y : spec_float) : bool := SFltb y x.
Definition le (x y : spec_float) : bool := SFleb x y.

(** The literals [0.01] and [5.0], of type [double]. *)
Definition d_0_01 : double := S754_finite false 5764607523034235 (-59).
Definition d_5_0 : double := S754_finite false 5629499534213120 (-50).

(** [float] values used in statements. *)
Definition f_0 : float := S754_zero false.
Definition f_1 : float := S754_finite false 8388608 (-23).
Definition f_100 : float := S754_finite false 13107200 (-17).

(** A well-formed binary32 value. *)
Definition is_float (x : float) : bool := valid_binary float_prec float_emax x.

(** Bound by a power of two: the value is [+-0], or it is finite with the
    sign [s] and magnitude at most [2^k], written on the exponent. *)
Definition le_pow2 (prec : Z) (s : bool) (k : Z) (r : spec_float) : Prop :=
  match r with
  | S754_zero s' => s' = s
  | S754_finite s' m' e' =>
      s' = s /\ e' <= k + 1 - prec /\ Zpos m' <= 2 ^ (k - e')
  | _ => False
  end.

End Fp.

(* ================================================================== *)
(** * Data types of lib.cpp *)
(* ================================================================== *)

Module Cpp_types.

Record IntRect := {
  left : Z;
  right : Z;
  top : Z;
  bottom : Z
}.

Definition IntRect_default : IntRect :=
  {| left := 0; right := 0; top := 0; bottom := 0 |}.

(** [enum LayoutFlag { StartOfLine = 1, EndOfLine = 2 }] and
    [using LayoutFlags = int]. *)
Definition StartOfLine : Z := 1.
Definition EndOfLine : Z := 2.
Definition LayoutFlags := Z.

Record TextRect := {
  rect : IntRect;
  flags : LayoutFlags;
  confidence : Fp.float;
  text : string
}.

Definition TextRect_default : TextRect :=
  {| rect := IntRect_default; flags := 0; confidence := Fp.f_0;
     text := EmptyString |}.

Record Orientation := {
  rotation : Z;
  orientation_confidence : Fp.float
}.

Definition Orientation_default : Orientation :=
  {| rotation := 0; orientation_confidence := Fp.f_0 |}.

Record GetVariableResult := {
  success : bool;
  value : string
}.

(** [enum class TextUnit { Word, Line }]: the enumerators have the
    values 0 and 1, which [operator<] compares. *)
Inductive TextUnit := Word | Line.

Definition TextUnit_value (u : TextUnit) : Z :=
  match u with Word => 0 | Line => 1 end.

Definition TextUnit_lt (a b : TextUnit) : bool :=
  TextUnit_value a <? TextUnit_value b.

(** [typedef std::string OCRResult]: the error text, empty on success. *)
Definition OCRResult := string.

(** [ByteView]: a malloc'ed block and its size. *)
Record ByteView := { bytes_ : list Byte.byte }.
Definition Bytes (v : ByteView) : list Byte.byte := bytes_ v.
Definition Size (v : ByteView) : nat := List.length (bytes_ v).

End Cpp_types.

(* ================================================================== *)
(** * The backend: a test double of Tesseract and Leptonica *)
(* ================================================================== *)

Module Backend.
Import Cpp_types.

(** A decoded raster. *)
Record Pix := { pix_w : Z; pix_h : Z; pix_data : list Z }.

(** Modelled from the spec: the region hierarchy that the backend's
    layout analysis and recognition produce (its own sources are not
    part of this repository). A page holds text lines, a line holds
    words, a word holds symbols; none of them is empty. Every region
    carries its bounding box, its raw confidence (a percentage) and its
    text. *)
Record SymbolRegion := {
  s_box : IntRect; s_conf : Fp.float; s_text : string
}.
Record WordRegion := {
  w_box : IntRect; w_conf : Fp.float; w_text : string;
  w_first : SymbolRegion; w_rest : list SymbolRegion
}.
Record LineRegion := {
  l_box : IntRect; l_conf : Fp.float; l_text : string;
  l_first : WordRegion; l_rest : list WordRegion
}.
Record Page := { p_first : LineRegion; p_rest : list LineRegion }.

Definition l_words (l : LineRegion) : list WordRegion := l_first l :: l_rest l.
Definition p_lines (p : Page) : list LineRegion := p_first p :: p_rest p.

(** The levels of [tesseract::PageIteratorLevel] that lib.cpp names. *)
Inductive PageIteratorLevel := RIL_TEXTLINE | RIL_WORD | RIL_SYMBOL.

(** Modelled from the spec: the backend's region iterator
    ([tesseract::ResultIterator]), a cursor into the page. It stands on
    one symbol of one word of one line and remembers what follows. *)
Record ResultIterator := {
  it_line : LineRegion;
  it_word : WordRegion;
  it_symbol : SymbolRegion;
  it_word_first : bool;     (* the word is the first of its line *)
  it_symbol_first : bool;   (* the symbol is the first of its word *)
  it_symbols_after : list SymbolRegion;
  it_words_after : list WordRegion;
  it_lines_after : list LineRegion
}.

Definition enter_line (l : LineRegion) (after : list LineRegion)
  : ResultIterator :=
  {| it_line := l; it_word := l_first l; it_symbol := w_first (l_first l);
     it_word_first := true; it_symbol_first := true;
     it_symbols_after := w_rest (l_first l);
     it_words_after := l_rest l;
     it_lines_after := after |}.

Definition enter_word (it : ResultIterator) (w : WordRegion) (after : list WordRegion)
  : ResultIterator :=
  {| it_line := it_line it; it_word := w; it_symbol := w_first w;
     it_word_first := false; it_symbol_first := true;
     it_symbols_after := w_rest w;
     it_words_after := after;
     it_lines_after := it_lines_after it |}.

Definition enter_symbol (it : ResultIterator) (s : SymbolRegion)
    (after : list SymbolRegion) : ResultIterator :=
  {| it_line := it_line it; it_word := it_word it; it_symbol := s;
     it_word_first := it_word_first it; it_symbol_first := false;
     it_symbols_after := after;
     it_words_after := it_words_after it;
     it_lines_after := it_lines_after it |}.

(** The iterator at the first region of a page. *)
Definition Begin (p : Page) : ResultIterator :=
  enter_line (p_first p) (p_rest p).

Definition next_line (it : ResultIterator) : option ResultIterator :=
  match it_lines_after it with
  | l :: ls => Some (enter_line l ls)
  | [] => None
  end.

Definition next_word (it : ResultIterator) : option ResultIterator :=
  match it_words_after it with
  | w :: ws => Some (enter_word it w ws)
  | [] => next_line it
  end.

(** [iter->Next(level)]: move to the start of the next region of the
    level; [None] when there is none (the call returns false). *)
Definition Next (level : PageIteratorLevel) (it : ResultIterator)
  : option ResultIterator :=
  match level with
  | RIL_TEXTLINE => next_line it
  | RIL_WORD => next_word it
  | RIL_SYMBOL =>
      match it_symbols_after it with
      | s :: ss => Some (enter_symbol it s ss)
      | [] => next_word it
      end
  end.

(** [iter->IsAtBeginningOf(level)]. *)
Definition IsAtBeginningOf (level : PageIteratorLevel)
    (it : ResultIterator) : bool :=
  match level with
  | RIL_TEXTLINE => it_word_first it && it_symbol_first it
  | RIL_WORD => it_symbol_first it
  | RIL_SYMBOL => true
  end.

(** [iter->IsAtFinalElement(level, element)]: the next [element] starts
    a new [level], or there is no next [element]. *)
Definition IsAtFinalElement (level element : PageIteratorLevel)
    (it : ResultIterator) : bool :=
  match Next element it with
  | None => true
  | Some it' => IsAtBeginningOf level it'
  end.

Definition BoundingBox (level : PageIteratorLevel) (it : ResultIterator)
  : IntRect :=
  match level with
  | RIL_TEXTLINE => l_box (it_line it)
  | RIL_WORD => w_box (it_word it)
  | RIL_SYMBOL => s_box (it_symbol it)
  end.

Definition Confidence (level : PageIteratorLevel) (it : ResultIterator)
  : Fp.float :=
  match level with
  | RIL_TEXTLINE => l_conf (it_line it)
  | RIL_WORD => w_conf (it_word it)
  | RIL_SYMBOL => s_conf (it_symbol it)
  end.

Definition GetUTF8Text_at (level : PageIteratorLevel) (it : ResultIterator)
  : string :=
  match level with
  | RIL_TEXTLINE => l_text (it_line it)
  | RIL_WORD => w_text (it_word it)
  | RIL_SYMBOL => s_text (it_symbol it)
  end.

(** Number of symbols after the cursor: what every [Next] decreases. *)
Definition word_size (w : WordRegion) : nat := S (List.length (w_rest w)).
Definition words_size (ws : list WordRegion) : nat :=
  list_sum (map word_size ws).
Definition line_size (l : LineRegion) : nat :=
  (word_size (l_first l) + words_size (l_rest l))%nat.
Definition lines_size (ls : list LineRegion) : nat :=
  list_sum (map line_size ls).
Definition remaining (it : ResultIterator) : nat :=
  (List.length (it_symbols_after it) + words_size (it_words_after it)
   + lines_size (it_lines_after it))%nat.

(** The raw scores of a page at one level, in reading order. *)
Definition page_scores (level : PageIteratorLevel) (p : Page)
  : list Fp.float :=
  match level with
  | RIL_TEXTLINE => map l_conf (p_lines p)
  | RIL_WORD => map w_conf (flat_map l_words (p_lines p))
  | RIL_SYMBOL =>
      map s_conf
        (flat_map (fun w => w_first w :: w_rest w)
           (flat_map l_words (p_lines p)))
  end.

(** The backend contract on a raw score: a percentage. *)
Definition percentage (x : Fp.float) : Prop :=
  Fp.is_float x = true /\ Fp.le Fp.f_0 x = true /\ Fp.le x Fp.f_100 = true.

(** What the double answers: the behaviour that depends on the model
    bytes and on the pixels. *)
Record Behaviour := {
  Version : string;
  (** [TessBaseAPI::Init]: 0 on success. *)
  Init_result : list Byte.byte -> string -> Z;
  (** [pixReadMem]: the decoded image, or [None] for a null pointer. *)
  pixReadMem : list Byte.byte -> option Pix;
  (** The regions found by layout analysis, [None] when there is none. *)
  segment : Pix -> option Page;
  (** The regions after recognition with a model. *)
  recognise : list Byte.byte -> Pix -> option Page;
  (** The values of [monitor->progress] reported during recognition. *)
  progress_reports : list Byte.byte -> Pix -> list Z;
  (** [pixOrientDetect]: the error code and the two confidences. *)
  orient_detect : Pix -> Z * Fp.float * Fp.float;
  (** [GetUTF8Text] and [GetHOCRText] of the whole page. *)
  page_text : option Page -> string;
  page_hocr : option Page -> string;
  (** The tunables: whether a name takes a value, and the value of a
      name that has not been set ([None] for an unknown name). *)
  accepts_variable : string -> string -> bool;
  default_variable : string -> option string;
  (** Whether the compiled module has the class [Image], which the
      wrapper constructs in [loadImage]; the bindings of lib.cpp
      register [ByteView] and no [Image]. *)
  binds_Image : bool
}.

(** The state of one [tesseract::TessBaseAPI], with the two call
    counters of the double. *)
Record TessBaseAPI := {
  model_ : option (list Byte.byte);
  image_ : option Pix;
  page_res_ : option Page;
  variables_ : list (string * string);
  AnalyseLayout_calls : nat;
  Recognize_calls : nat
}.

Definition new_TessBaseAPI : TessBaseAPI :=
  {| model_ := None; image_ := None; page_res_ := None; variables_ := [];
     AnalyseLayout_calls := 0; Recognize_calls := 0 |}.

Fixpoint lookup_variable (name : string) (vars : list (string * string))
  : option string :=
  match vars with
  | [] => None
  | (n, v) :: rest =>
      if String.eqb n name then Some v else lookup_variable name rest
  end.

Section Calls.
Variable B : Behaviour.

Definition Init (data : list Byte.byte) (lang : string) (t : TessBaseAPI)
  : Z * TessBaseAPI :=
  let result := Init_result B data lang in
  if result =? 0
  then (result,
        {| model_ := Some data; image_ := image_ t;
           page_res_ := page_res_ t; variables_ := variables_ t;
           AnalyseLayout_calls := AnalyseLayout_calls t;
           Recognize_calls := Recognize_calls t |})
  else (result, t).

(** A no-op on the state of the double. *)
Definition InitForAnalysePage (t : TessBaseAPI) : TessBaseAPI := t.

(** [SetImage] takes a copy of the image and drops earlier results. *)
Definition SetImage (pix : Pix) (t : TessBaseAPI) : TessBaseAPI :=
  {| model_ := model_ t; image_ := Some pix; page_res_ := None;
     variables_ := variables_ t;
     AnalyseLayout_calls := AnalyseLayout_calls t;
     Recognize_calls := Recognize_calls t |}.

Definition Clear (t : TessBaseAPI) : TessBaseAPI :=
  {| model_ := model_ t; image_ := None; page_res_ := None;
     variables_ := variables_ t;
     AnalyseLayout_calls := AnalyseLayout_calls t;
     Recognize_calls := Recognize_calls t |}.

Definition AnalyseLayout (t : TessBaseAPI) : TessBaseAPI :=
  {| model_ := model_ t; image_ := image_ t;
     page_res_ := match image_ t with
                  | Some pix => segment B pix
                  | None => None
                  end;
     variables_ := variables_ t;
     AnalyseLayout_calls := S (AnalyseLayout_calls t);
     Recognize_calls := Recognize_calls t |}.

(** [Recognize(monitor)]: [handler] is the monitor's
    [progress_callback2] applied to the current [monitor->progress];
    the events it causes are collected in order. Without a model or an
    image the call fails and leaves the results as they are. *)
Definition Recognize {E : Type} (handler : Z -> list E) (t : TessBaseAPI)
  : list E * TessBaseAPI :=
  match model_ t, image_ t with
  | Some data, Some pix =>
      (flat_map handler (progress_reports B data pix),
       {| model_ := model_ t; image_ := image_ t;
          page_res_ := recognise B data pix;
          variables_ := variables_ t;
          AnalyseLayout_calls := AnalyseLayout_calls t;
          Recognize_calls := S (Recognize_calls t) |})
  | _, _ =>
      ([],
       {| model_ := model_ t; image_ := image_ t;
          page_res_ := page_res_ t; variables_ := variables_ t;
          AnalyseLayout_calls := AnalyseLayout_calls t;
          Recognize_calls := S (Recognize_calls t) |})
  end.

(** [GetIterator]: null when there is no result. *)
Definition GetIterator (t : TessBaseAPI) : option ResultIterator :=
  option_map Begin (page_res_ t).

Definition GetThresholdedImage (t : TessBaseAPI) : option Pix := image_ t.

(** [pixOrientDetect(pix, &up_conf, &left_conf, ...)]: on a null image
    it reports an error and leaves the two outputs alone. *)
Definition pixOrientDetect (pix : option Pix) (up_conf left_conf : Fp.float)
  : Z * Fp.float * Fp.float :=
  match pix with
  | Some p => orient_detect B p
  | None => (1, up_conf, left_conf)
  end.

(** The C strings that [GetUTF8Text] and [GetHOCRText] return; the
    double returns one in every state. *)
Definition GetUTF8Text (t : TessBaseAPI) : string :=
  page_text B (page_res_ t).
Definition GetHOCRText (t : TessBaseAPI) : string :=
  page_hocr B (page_res_ t).

(** [GetVariableAsString(name, &val)]: whether the name is known, and
    its value. *)
Definition GetVariableAsString (name : string) (t : TessBaseAPI)
  : bool * string :=
  match lookup_variable name (variables_ t) with
  | Some v => (true, v)
  | None =>
      match default_variable B name with
      | Some v => (true, v)
      | None => (false, EmptyString)
      end
  end.

Definition SetVariable (name value : string) (t : TessBaseAPI)
  : bool * TessBaseAPI :=
  if accepts_variable B name value
  then (true,
        {| model_ := model_ t; image_ := image_ t;
           page_res_ := page_res_ t;
           variables_ := (name, value) :: variables_ t;
           AnalyseLayout_calls := AnalyseLayout_calls t;
           Recognize_calls := Recognize_calls t |})
  else (false, t).
End Calls.

End Backend.

(* ================================================================== *)
(** * JavaScript values crossing the binding *)
(* ================================================================== *)

Module Emscripten.

(** What invoking a JavaScript progress callback does, as seen from
    outside: the caller's handler is told a percentage, or a message is
    posted on the progress channel. *)
Inductive JsEvent :=
| OnProgress (progress : Z)
| PostMessage (progress : Z).

(** An [emscripten::val] holding a callback: [None] is [undefined]. *)
Definition val := option (Z -> list JsEvent).

Definition isUndefined (v : val) : bool :=
  match v with None => true | Some _ => false end.

(** The call [v(percentage)] and the events it causes. *)
Definition invoke (v : val) (percentage : Z) : list JsEvent :=
  match v with
  | Some callback => callback percentage
  | None => []
  end.

(** The percentages told to the caller's handler, in order. *)
Definition told (events : list JsEvent) : list Z :=
  flat_map (fun ev => match ev with
                      | OnProgress p => [p]
                      | PostMessage _ => []
                      end) events.

End Emscripten.

(* ================================================================== *)
(** * The native engine (lib.cpp) *)
(* ================================================================== *)

Module Cpp.
Export Cpp_types.
Import Backend Emscripten.

(** [string_from_raw]: the copy of a C string. The strings of the
    double are never null. *)
Definition string_from_raw (ptr : string) : string := ptr.

(** [iterator_level_from_unit]. The last branch of the source
    ([RIL_SYMBOL]) is for a unit that is neither enumerator. *)
Definition iterator_level_from_unit (unit : TextUnit) : PageIteratorLevel :=
  match unit with
  | Line => RIL_TEXTLINE
  | Word => RIL_WORD
  end.

(** [class ProgressMonitor]. *)
Record ProgressMonitor := { js_callback_ : val }.

Definition ProgressChanged (monitor : ProgressMonitor) (percentage : Z)
  : list JsEvent :=
  if negb (isUndefined (js_callback_ monitor))
  then invoke (js_callback_ monitor) percentage
  else [].

(** [progress_handler], applied to the monitor's current progress. *)
Definition progress_handler (monitor : ProgressMonitor) (progress : Z)
  : list JsEvent :=
  ProgressChanged monitor progress.

(** The body of the [do ... while] of [GetBoxes] at one position. *)
Definition GetBoxes_item (unit : TextUnit) (with_text : bool)
    (level : PageIteratorLevel) (iter : ResultIterator) : TextRect :=
  let tr := TextRect_default in
  let tr :=
    if with_text
    then {| rect := rect tr; flags := flags tr;
            confidence :=
              Fp.float_of_double
                (Fp.dmul (Fp.double_of_float (Confidence level iter))
                   Fp.d_0_01);
            text := string_from_raw (GetUTF8Text_at level iter) |}
    else tr in
  let tr :=
    if TextUnit_lt unit Line
    then
      let tr :=
        if IsAtBeginningOf RIL_TEXTLINE iter
        then {| rect := rect tr; flags := Z.lor (flags tr) StartOfLine;
                confidence := confidence tr; text := text tr |}
        else tr in
      if IsAtFinalElement RIL_TEXTLINE level iter
      then {| rect := rect tr; flags := Z.lor (flags tr) EndOfLine;
              confidence := confidence tr; text := text tr |}
      else tr
    else tr in
  {| rect := BoundingBox level iter; flags := flags tr;
     confidence := confidence tr; text := text tr |}.

(** The [do ... while (iter->Next(level))] loop of [GetBoxes]; [boxes]
    is the vector filled so far. *)
Equations? GetBoxes_loop (unit : TextUnit) (with_text : bool)
    (level : PageIteratorLevel) (it : ResultIterator)
    (boxes : list TextRect) : list TextRect
    by wf (remaining it) lt :=
  GetBoxes_loop unit with_text level it boxes
    with inspect (Next level it) := {
    | exist _ (Some it') _ =>
        GetBoxes_loop unit with_text level it'
          (boxes ++ [GetBoxes_item unit with_text level it])
    | exist _ None _ =>
        boxes ++ [GetBoxes_item unit with_text level it] }.
Proof.
  clear GetBoxes_loop.
  assert (Hline : forall a b, next_line a = Some b ->
            (remaining b < remaining a)%nat).
  { intros a b. unfold next_line, remaining.
    destruct (it_lines_after a) as [|l ls]; [discriminate|].
    intros [= <-]. unfold enter_line, lines_size.
    cbn [it_symbols_after it_words_after it_lines_after map list_sum fold_right].
    unfold line_size, word_size. lia. }
  assert (Hword : forall a b, next_word a = Some b ->
            (remaining b < remaining a)%nat).
  { intros a b. unfold next_word.
    destruct (it_words_after a) as [|w ws] eqn:Ew; [apply Hline|].
    intros [= <-]. unfold remaining. rewrite Ew.
    unfold enter_word, words_size.
    cbn [it_symbols_after it_words_after it_lines_after map list_sum fold_right].
    unfold word_size. lia. }
  destruct level; cbn [Next] in e; auto.
  destruct (it_symbols_after it) as [|s ss] eqn:Es; auto.
  injection e as <-. unfold remaining. rewrite Es.
  cbn [enter_symbol it_symbols_after it_words_after it_lines_after
       Datatypes.length].
  lia.
Qed.

Record OCREngine := {
  layout_analysis_done_ : bool;
  ocr_done_ : bool;
  tesseract_ : TessBaseAPI
}.

(** The constructor. *)
Definition new_OCREngine : OCREngine :=
  {| layout_analysis_done_ := false; ocr_done_ := false;
     tesseract_ := new_TessBaseAPI |}.

(** A double quote and a line feed, for the hOCR template. *)
Definition dq : string := String (ascii_of_nat 34) EmptyString.
Definition nl : string := String (ascii_of_nat 10) EmptyString.

(** The [std::format] template of [GetHOCR], with its two holes. *)
Definition hocr_template (version body : string) : string :=
  String.concat EmptyString
    [ "<?xml version="; dq; "1.0"; dq; " encoding="; dq; "UTF-8"; dq; "?>"; nl;
      "<!DOCTYPE html PUBLIC "; dq; "-//W3C//DTD XHTML 1.0 Transitional//EN";
      dq; " "; dq;
      "http://www.w3.org/TR/xhtml1/DTD/xhtml1-transitional.dtd"; dq; ">"; nl;
      "<html xmlns="; dq; "http://www.w3.org/1999/xhtml"; dq;
      " xml:lang="; dq; "en"; dq; " lang="; dq; "en"; dq; ">"; nl;
      "<head>"; nl;
      "  <title>hOCR text</title>"; nl;
      "  <meta http-equiv="; dq; "Content-Type"; dq; " content="; dq;
      "text/html;charset=utf-8"; dq; "/>"; nl;
      "  <meta name='ocr-system' content='tesseract "; version; "' />"; nl;
      "  <meta name='ocr-capabilities' content='ocr_page ocr_carea ocr_par ocr_line ocrx_word ocrp_wconf' />";
      nl;
      "</head>"; nl;
      "<body>"; nl;
      "  "; body; nl;
      "</body>"; nl;
      "</html>" ]%string.

Section Engine.
Variable B : Behaviour.

Definition set_tesseract (this : OCREngine) (t : TessBaseAPI) : OCREngine :=
  {| layout_analysis_done_ := layout_analysis_done_ this;
     ocr_done_ := ocr_done_ this;
     tesseract_ := t |}.

Definition LoadModel (model : ByteView) (lang : string) (this : OCREngine)
  : OCRResult * OCREngine :=
  let (result, t) := Init B (Bytes model) lang (tesseract_ this) in
  if negb (result =? 0)
  then ("Failed to load training data"%string, set_tesseract this t)
  else (EmptyString, set_tesseract this t).

Definition GetVariable (var_name : string) (this : OCREngine)
  : GetVariableResult :=
  let name := var_name in
  let (success, val) := GetVariableAsString B name (tesseract_ this) in
  if negb success
  then {| success := false; value := EmptyString |}
  else {| success := true; value := val |}.

Definition SetVariable (var_name var_value : string) (this : OCREngine)
  : OCRResult * OCREngine :=
  let name := var_name in
  let value := var_value in
  let (success, t) := Backend.SetVariable B name value (tesseract_ this) in
  if negb success
  then (("Failed to set value for variable " ++ var_name)%string,
        set_tesseract this t)
  else (EmptyString, set_tesseract this t).

Definition LoadImage (view : ByteView) (this : OCREngine)
  : OCRResult * OCREngine :=
  match pixReadMem B (Bytes view) with
  | None => ("pixReadMem failed"%string, this)
  | Some pix =>
      let t := InitForAnalysePage (tesseract_ this) in
      let t := SetImage pix t in
      (EmptyString,
       {| layout_analysis_done_ := false; ocr_done_ := false;
          tesseract_ := t |})
  end.

Definition ClearImage (this : OCREngine) : OCREngine :=
  {| layout_analysis_done_ := false; ocr_done_ := false;
     tesseract_ := Clear (tesseract_ this) |}.

Definition GetBoxes (unit : TextUnit) (with_text : bool) (this : OCREngine)
  : list TextRect :=
  match GetIterator (tesseract_ this) with
  | None => []
  | Some iter =>
      let level := iterator_level_from_unit unit in
      GetBoxes_loop unit with_text level iter []
  end.

Definition GetBoundingBoxes (unit : TextUnit) (this : OCREngine)
  : list TextRect * OCREngine :=
  let this :=
    if negb (layout_analysis_done_ this)
    then {| layout_analysis_done_ := true; ocr_done_ := ocr_done_ this;
            tesseract_ := AnalyseLayout B (tesseract_ this) |}
    else this in
  (GetBoxes unit false this, this).

Definition DoOCR (progress_callback : val) (this : OCREngine)
  : list JsEvent * OCREngine :=
  let monitor := {| js_callback_ := progress_callback |} in
  let (reported, this) :=
    if negb (ocr_done_ this)
    then
      let (events, t) :=
        Recognize B (progress_handler monitor) (tesseract_ this) in
      (events,
       {| layout_analysis_done_ := true; ocr_done_ := true;
          tesseract_ := t |})
    else ([], this) in
  (reported ++ ProgressChanged monitor 100, this).

Definition GetTextBoxes (unit : TextUnit) (progress_callback : val)
    (this : OCREngine) : list TextRect * list JsEvent * OCREngine :=
  let (events, this) := DoOCR progress_callback this in
  (GetBoxes unit true this, events, this).

Definition GetText (progress_callback : val) (this : OCREngine)
  : string * list JsEvent * OCREngine :=
  let (events, this) := DoOCR progress_callback this in
  (string_from_raw (GetUTF8Text B (tesseract_ this)), events, this).

Definition GetHOCR (progress_callback : val) (this : OCREngine)
  : string * list JsEvent * OCREngine :=
  let (events, this) := DoOCR progress_callback this in
  let hocr_body := string_from_raw (GetHOCRText B (tesseract_ this)) in
  (hocr_template (Version B) hocr_body, events, this).

(** [abs] on a [float] is the floating-point absolute value; the
    difference is a [float], compared with the [double] 5.0. *)
Definition GetOrientation (this : OCREngine) : Orientation :=
  let pix := GetThresholdedImage (tesseract_ this) in
  let up_conf := Fp.float_of_int 0 in
  let left_conf := Fp.float_of_int 0 in
  let '(had_error, up_conf, left_conf) :=
    pixOrientDetect B pix up_conf left_conf in
  if negb (had_error =? 0)
  then Orientation_default
  else
    let is_up_or_down :=
      Fp.gt (Fp.double_of_float
               (Fp.fsub (Fp.fabs up_conf) (Fp.fabs left_conf)))
            Fp.d_5_0 in
    let rotation :=
      if is_up_or_down
      then if Fp.gt up_conf (Fp.float_of_int 0) then 0 else 180
      else if Fp.lt left_conf (Fp.float_of_int 0) then 90 else 270 in
    {| rotation := rotation;
       orientation_confidence := Fp.float_of_int 1 |}.
End Engine.

End Cpp.

(* ================================================================== *)
(** * The JavaScript wrapper class *)
(* ================================================================== *)

Module Js.
Import Cpp_types Backend Emscripten.

(** How a method call ends. *)
Inductive Completion (A : Type) :=
| Return (value : A)
| Throw (message : string).
Arguments Return {A} value.
Arguments Throw {A} message.

(** The messages of the errors, under the names the specification
    gives them. *)
Definition NoImageError : string := "No image loaded".
Definition NoModelError : string := "No text recognition model loaded".
Definition InvalidUnitError : string := "Invalid text unit".

(** The errors that the JavaScript runtime and the binding raise; their
    messages are not in this repository, so each is written by the name
    of its class. *)
Definition TypeError : string := "TypeError".
Definition RangeError : string := "RangeError".
Definition BindingError : string := "BindingError".

(** The fields of the wrapper object. [_progressChannel] tells whether
    a message port was given to the constructor. [destroy], which ends
    the session, is not modelled. *)
Record OCREngine := {
  _engine : Cpp.OCREngine;
  _modelLoaded : bool;
  _imageLoaded : bool;
  _progressChannel : bool
}.

(** The constructor. *)
Definition new_OCREngine (progressChannel : bool) : OCREngine :=
  {| _engine := Cpp.new_OCREngine; _modelLoaded := false;
     _imageLoaded := false; _progressChannel := progressChannel |}.

Record ImageData := {
  width : Z;
  height : Z;
  data : list Byte.byte
}.

(** A method body: it reads and updates the object, may cause callback
    events, and returns or throws. *)
Definition JS (A : Type) : Type :=
  OCREngine -> Completion A * list JsEvent * OCREngine.

Definition ret {A} (v : A) : JS A := fun this => (Return v, [], this).
Definition throw {A} (message : string) : JS A :=
  fun this => (Throw message, [], this).
Definition bind {A B} (c : JS A) (k : A -> JS B) : JS B :=
  fun this =>
    match c this with
    | (Return v, ev, this') =>
        let '(r, ev', this'') := k v this' in (r, ev ++ ev', this'')
    | (Throw message, ev, this') => (Throw message, ev, this')
    end.

Notation "x <- c ;; k" := (bind c (fun x => k))
  (at level 61, c at next level, right associativity).
Notation "c ;; k" := (bind c (fun _ => k))
  (at level 61, right associativity).

Definition get_this : JS OCREngine := fun this => (Return this, [], this).

(** A call of a method of [this._engine]. *)
Definition engine_call {A} (f : Cpp.OCREngine -> A * Cpp.OCREngine) : JS A :=
  fun this =>
    let (v, e) := f (_engine this) in
    (Return v, [],
     {| _engine := e; _modelLoaded := _modelLoaded this;
        _imageLoaded := _imageLoaded this;
        _progressChannel := _progressChannel this |}).

(** The same for a method that may call back into JavaScript. *)
Definition engine_call_cb {A}
    (f : Cpp.OCREngine -> A * list JsEvent * Cpp.OCREngine) : JS A :=
  fun this =>
    let '(v, ev, e) := f (_engine this) in
    (Return v, ev,
     {| _engine := e; _modelLoaded := _modelLoaded this;
        _imageLoaded := _imageLoaded this;
        _progressChannel := _progressChannel this |}).

Definition set_modelLoaded (b : bool) : JS unit :=
  fun this =>
    (Return tt, [],
     {| _engine := _engine this; _modelLoaded := b;
        _imageLoaded := _imageLoaded this;
        _progressChannel := _progressChannel this |}).

Definition set_imageLoaded (b : bool) : JS unit :=
  fun this =>
    (Return tt, [],
     {| _engine := _engine this; _modelLoaded := _modelLoaded this;
        _imageLoaded := b;
        _progressChannel := _progressChannel this |}).

(** The failure test on a native result: an [OCRResult] is the error
    text, which is empty when the call went well. This is what a caller
    of the native method can test; the wrapper tests the property
    [result.error] instead, see [result_error]. *)
Definition error (result : OCRResult) : bool :=
  match result with
  | EmptyString => false
  | String _ _ => true
  end.

(** [result.error] in the wrapper. [typedef std::string OCRResult]
    crosses the binding as a JavaScript string, whatever its text, and a
    string has no property [error]: the value is [undefined], written
    [None]. *)
Definition result_error (result : OCRResult) : option string := None.

(** The condition of an [if]: [undefined] and the empty string are
    falsy. *)
Definition truthy (v : option string) : bool :=
  match v with
  | None | Some EmptyString => false
  | Some (String _ _) => true
  end.

(** Modelled from the spec: the class [Image] of the compiled module,
    which [loadImage] constructs and whose code is not in this
    repository. It is the PixelBuffer of the specification, a buffer of
    [width * height] 32-bit words, held here as its bytes; [data()] is
    the view of that buffer as 32-bit words. *)
Record Image := {
  image_width : Z;
  image_height : Z;
  image_buffer : list Byte.byte
}.

(** The number of elements of a view of bytes as 32-bit words. *)
Definition words (bytes : list Byte.byte) : Z :=
  Z.of_nat (List.length bytes) / 4.

(** A [Uint32Array] over a buffer needs a byte length that is a
    multiple of 4. *)
Definition word_aligned (bytes : list Byte.byte) : bool :=
  Z.of_nat (List.length bytes) mod 4 =? 0.

(** [target.set(source)] needs a source that is not longer than the
    target. *)
Definition fits (source target : list Byte.byte) : bool :=
  words source <=? words target.

(** [jsArrayFromStdVector]: [vec.get(i)] is [nth_error vec i], where
    [None] stands for [undefined]; [n] counts the iterations left. *)
Fixpoint jsArrayFromStdVector_loop {T} (vec : list T) (n i : nat)
    (result : list (option T)) : list (option T) :=
  match n with
  | O => result
  | S n' => jsArrayFromStdVector_loop vec n' (S i) (result ++ [nth_error vec i])
  end.

Definition jsArrayFromStdVector {T} (vec : list T) : list (option T) :=
  let size := List.length vec in
  jsArrayFromStdVector_loop vec size 0 [].

(** The arrow function handed to the native engine as progress
    callback. [onProgress] tells whether the caller passed a handler. *)
Definition progress_arrow (onProgress : bool) (this : OCREngine)
  : Z -> list JsEvent :=
  fun progress =>
    (if onProgress then [OnProgress progress] else [])
    ++ (if _progressChannel this then [PostMessage progress] else []).

Section Wrapper.
(** [this._tesseractLib]: the compiled module over its backend. *)
Variable B : Behaviour.
(** The wrapper calls [this._engine.loadModel] with the model alone,
    where [LoadModel] has two parameters, the model and the language.
    What the binding makes of such a call is not in this repository:
    [lang] is [None] when the binding refuses the call, which throws,
    and [Some l] when it calls [LoadModel] with the language [l]. *)
Variable lang : option string.

Definition _checkModelLoaded : JS unit :=
  this <- get_this ;;
  if negb (_modelLoaded this)
  then throw "No text recognition model loaded"
  else ret tt.

Definition _checkImageLoaded : JS unit :=
  this <- get_this ;;
  if negb (_imageLoaded this)
  then throw "No image loaded"
  else ret tt.

Definition _textUnitForUnit (unit : string) : JS TextUnit :=
  if String.eqb unit "word" then ret Word
  else if String.eqb unit "line" then ret Line
  else throw "Invalid text unit".

(** [this._engine.loadModel(modelArray)]. *)
Definition engine_loadModel (modelArray : list Byte.byte) : JS OCRResult :=
  match lang with
  | Some language =>
      engine_call (Cpp.LoadModel B {| bytes_ := modelArray |} language)
  | None => throw BindingError
  end.

Definition loadModel (model : list Byte.byte) : JS unit :=
  let modelArray := model in
  result <- engine_loadModel modelArray ;;
  (if truthy (result_error result)
   then throw "Text recognition model failed to load"
   else ret tt) ;;
  set_modelLoaded true.

(** [new this._tesseractLib.Image(width, height)]: a TypeError when
    the module has no such class. The bytes of the new buffer are
    written as zeros; [loadImage] overwrites them all or throws. *)
Definition new_Image (width height : Z) : JS Image :=
  if binds_Image B
  then ret {| image_width := width; image_height := height;
              image_buffer :=
                repeat Byte.x00 (Z.to_nat (width * height * 4)) |}
  else throw TypeError.

(** [new Uint32Array(imageData.data.buffer)]: the bytes of the pixel
    data as 32-bit words, the data spanning its buffer as that of an
    [ImageData] does; a RangeError when the byte length is not a
    multiple of 4. *)
Definition new_Uint32Array (buffer : list Byte.byte)
  : JS (list Byte.byte) :=
  if word_aligned buffer then ret buffer else throw RangeError.

(** [engineImageBuf.set(source)]: the words of the source are copied
    to the start of the image buffer; a RangeError when the source
    has more words than the buffer. *)
Definition engineImageBuf_set (engineImage : Image)
    (source : list Byte.byte) : JS Image :=
  if fits source (image_buffer engineImage)
  then ret {| image_width := image_width engineImage;
              image_height := image_height engineImage;
              image_buffer :=
                source
                ++ skipn (List.length source)
                     (image_buffer engineImage) |}
  else throw RangeError.

(** The image arrives as [ImageData]; the conversion of an
    [ImageBitmap] is done by a helper outside this class. *)
Definition loadImage (image : ImageData) : JS unit :=
  let imageData := image in
  (if Z.of_nat (List.length (data imageData))
      <? width imageData * height imageData * 4
   then throw "Image data length does not match width/height"
   else ret tt) ;;
  (if (width imageData <=? 0) || (height imageData <=? 0)
   then throw "Image width or height is zero"
   else ret tt) ;;
  (* Free up resources used by the previous image, if any. *)
  engine_call (fun e => (tt, Cpp.ClearImage e)) ;;
  (* The temporary internal image, filled with the image data. *)
  engineImage <- new_Image (width imageData) (height imageData) ;;
  source <- new_Uint32Array (data imageData) ;;
  engineImage <- engineImageBuf_set engineImage source ;;
  (* Load the image; the native method reads the bytes of the buffer. *)
  result <- engine_call
              (Cpp.LoadImage B {| bytes_ := image_buffer engineImage |}) ;;
  (* engineImage.delete() *)
  (if truthy (result_error result)
   then throw "Failed to load image"
   else ret tt) ;;
  set_imageLoaded true.

Definition getBoundingBoxes (unit : string)
  : JS (list (option TextRect)) :=
  _checkImageLoaded ;;
  textUnit <- _textUnitForUnit unit ;;
  vec <- engine_call (Cpp.GetBoundingBoxes B textUnit) ;;
  ret (jsArrayFromStdVector vec).

Definition getTextBoxes (unit : string) (onProgress : bool)
  : JS (list (option TextRect)) :=
  _checkImageLoaded ;;
  _checkModelLoaded ;;
  textUnit <- _textUnitForUnit unit ;;
  this <- get_this ;;
  vec <- engine_call_cb
           (Cpp.GetTextBoxes B textUnit
              (Some (progress_arrow onProgress this))) ;;
  ret (jsArrayFromStdVector vec).

Definition getText (onProgress : bool) : JS string :=
  _checkImageLoaded ;;
  _checkModelLoaded ;;
  this <- get_this ;;
  engine_call_cb (Cpp.GetText B (Some (progress_arrow onProgress this))).

Definition getOrientation : JS Orientation :=
  _checkImageLoaded ;;
  engine_call (fun e => (Cpp.GetOrientation B e, e)).

(** ** Calls on one session

    The methods of the wrapper, and the methods that the binding
    exposes on the native object only: [clearImage] and [getHOCR]
    have no wrapper method. *)
Inductive Call :=
| Call_loadModel (model : list Byte.byte)
| Call_loadImage (image : ImageData)
| Call_getBoundingBoxes (unit : string)
| Call_getTextBoxes (unit : string) (onProgress : bool)
| Call_getText (onProgress : bool)
| Call_getOrientation
| Native_clearImage
| Native_getHOCR (progress_callback : val)
| Native_loadModel (model : ByteView) (language : string)
| Native_loadImage (view : ByteView)
| Native_getBoundingBoxes (unit : TextUnit)
| Native_getTextBoxes (unit : TextUnit) (progress_callback : val)
| Native_getText (progress_callback : val)
| Native_getOrientation
| Native_getVariable (name : string)
| Native_setVariable (name value : string).

Inductive Value :=
| V_undefined
| V_array (items : list (option TextRect))
| V_vector (boxes : list TextRect)
| V_string (s : string)
| V_orientation (o : Orientation)
| V_variable (r : GetVariableResult).

Definition call (c : Call) : JS Value :=
  match c with
  | Call_loadModel model => loadModel model ;; ret V_undefined
  | Call_loadImage image => loadImage image ;; ret V_undefined
  | Call_getBoundingBoxes unit =>
      a <- getBoundingBoxes unit ;; ret (V_array a)
  | Call_getTextBoxes unit onProgress =>
      a <- getTextBoxes unit onProgress ;; ret (V_array a)
  | Call_getText onProgress => s <- getText onProgress ;; ret (V_string s)
  | Call_getOrientation => o <- getOrientation ;; ret (V_orientation o)
  | Native_clearImage =>
      engine_call (fun e => (V_undefined, Cpp.ClearImage e))
  | Native_getHOCR cb =>
      s <- engine_call_cb (Cpp.GetHOCR B cb) ;; ret (V_string s)
  | Native_loadModel model language =>
      r <- engine_call (Cpp.LoadModel B model language) ;; ret (V_string r)
  | Native_loadImage view =>
      r <- engine_call (Cpp.LoadImage B view) ;; ret (V_string r)
  | Native_getBoundingBoxes unit =>
      v <- engine_call (Cpp.GetBoundingBoxes B unit) ;; ret (V_vector v)
  | Native_getTextBoxes unit cb =>
      v <- engine_call_cb (Cpp.GetTextBoxes B unit cb) ;; ret (V_vector v)
  | Native_getText cb =>
      s <- engine_call_cb (Cpp.GetText B cb) ;; ret (V_string s)
  | Native_getOrientation =>
      o <- engine_call (fun e => (Cpp.GetOrientation B e, e)) ;;
      ret (V_orientation o)
  | Native_getVariable name =>
      r <- engine_call (fun e => (Cpp.GetVariable B name e, e)) ;;
      ret (V_variable r)
  | Native_setVariable name value =>
      r <- engine_call (Cpp.SetVariable B name value) ;; ret (V_string r)
  end.

(** The object after a call, and after a sequence of calls. *)
Definition after (c : Call) (this : OCREngine) : OCREngine :=
  snd (call c this).

Definition outcome (c : Call) (this : OCREngine) : Completion Value :=
  fst (fst (call c this)).

Definition events (c : Call) (this : OCREngine) : list JsEvent :=
  snd (fst (call c this)).

Fixpoint run (calls : list Call) (this : OCREngine) : OCREngine :=
  match calls with
  | [] => this
  | c :: rest => run rest (after c this)
  end.

(** The call returns rather than throws. *)
Definition succeeds (c : Call) (this : OCREngine) : bool :=
  match outcome c this with
  | Return _ => true
  | Throw _ => false
  end.

(** The calls that replace or clear the image. *)
Definition changes_image (c : Call) : bool :=
  match c with
  | Call_loadImage _ | Native_loadImage _ | Native_clearImage => true
  | _ => false
  end.

(** The session flags of the specification. *)
Definition modelLoaded (this : OCREngine) : bool := _modelLoaded this.
Definition imageLoaded (this : OCREngine) : bool := _imageLoaded this.
Definition layoutDone (this : OCREngine) : bool :=
  Cpp.layout_analysis_done_ (_engine this).
Definition ocrDone (this : OCREngine) : bool :=
  Cpp.ocr_done_ (_engine this).

(** The call counters of the backend double. *)
Definition layout_passes (this : OCREngine) : nat :=
  AnalyseLayout_calls (Cpp.tesseract_ (_engine this)).
Definition recognition_passes (this : OCREngine) : nat :=
  Recognize_calls (Cpp.tesseract_ (_engine this)).

(** The passes run so far plus the one that is still to come while
    the flag is down; no query raises either sum. *)
Definition layout_budget (this : OCREngine) : nat :=
  (layout_passes this + if layoutDone this then 0 else 1)%nat.
Definition recognition_budget (this : OCREngine) : nat :=
  (recognition_passes this + if ocrDone this then 0 else 1)%nat.

Definition is_loadImage (c : Call) : bool :=
  match c with Call_loadImage _ => true | _ => false end.
Definition is_loadModel (c : Call) : bool :=
  match c with Call_loadModel _ => true | _ => false end.

(** No call of the kind [kind] succeeds when the sequence [calls] is
    run from [this]. *)
Fixpoint none_succeeded (kind : Call -> bool) (calls : list Call)
    (this : OCREngine) : bool :=
  match calls with
  | [] => true
  | c :: rest =>
      negb (kind c && succeeds c this)
      && none_succeeded kind rest (after c this)
  end.

(** The wrapper queries by the guard they pass through. *)
Definition needs_image (c : Call) : bool :=
  match c with
  | Call_getBoundingBoxes _ | Call_getTextBoxes _ _
  | Call_getText _ | Call_getOrientation => true
  | _ => false
  end.
Definition needs_model (c : Call) : bool :=
  match c with
  | Call_getTextBoxes _ _ | Call_getText _ => true
  | _ => false
  end.

(** The queries that return boxes, and those that run recognition. *)
Definition is_boxes_query (c : Call) : bool :=
  match c with
  | Call_getBoundingBoxes _ | Native_getBoundingBoxes _ => true
  | _ => false
  end.
Definition is_text_query (c : Call) : bool :=
  match c with
  | Call_getTextBoxes _ _ | Call_getText _
  | Native_getTextBoxes _ _ | Native_getText _ | Native_getHOCR _ => true
  | _ => false
  end.

(** The progress callback that a call hands to the native engine. *)
Definition callback_of (c : Call) (this : OCREngine) : val :=
  match c with
  | Call_getTextBoxes _ onProgress | Call_getText onProgress =>
      Some (progress_arrow onProgress this)
  | Native_getTextBoxes _ cb | Native_getText cb | Native_getHOCR cb => cb
  | _ => None
  end.

(** A call that replaced or cleared the image: a [loadImage] of the
    wrapper that returned, a native one that reported no error, or a
    [clearImage]. *)
Definition image_changed (c : Call) (this : OCREngine) : bool :=
  match c with
  | Call_loadImage _ => succeeds c this
  | Native_loadImage _ =>
      match outcome c this with
      | Return (V_string EmptyString) => true
      | _ => false
      end
  | Native_clearImage => true
  | _ => false
  end.

Definition valid_unit (unit : string) : bool :=
  String.eqb unit "word" || String.eqb unit "line".

(** A request for boxes whose preconditions are met. *)
Definition boxes_request (c : Call) (this : OCREngine) : bool :=
  match c with
  | Call_getBoundingBoxes unit => imageLoaded this && valid_unit unit
  | Call_getTextBoxes unit _ =>
      imageLoaded this && modelLoaded this && valid_unit unit
  | Native_getBoundingBoxes _ | Native_getTextBoxes _ _ => true
  | _ => false
  end.

(** A query that the life-cycle guard rejects. *)
Definition rejected (c : Call) (this : OCREngine) (message : string)
  : Prop :=
  outcome c this = Throw message /\ after c this = this.
End Wrapper.

End Js.

(* ================================================================== *)
(** * Concrete doubles and inputs *)
(* ================================================================== *)

Module Fixture.
Import Cpp_types Backend Emscripten.

Definition box (l t r b : Z) : IntRect :=
  {| left := l; right := r; top := t; bottom := b |}.

Definition glyph (c : string) (l : Z) : SymbolRegion :=
  {| s_box := box l 10 (l + 8) 20; s_conf := Fp.float_of_int 90;
     s_text := c |}.

Definition hello : WordRegion :=
  {| w_box := box 10 10 50 20; w_conf := Fp.float_of_int 95;
     w_text := "Hello";
     w_first := glyph "H" 10;
     w_rest := [glyph "e" 18; glyph "l" 26; glyph "l" 34; glyph "o" 42] |}.

Definition world : WordRegion :=
  {| w_box := box 60 10 100 20; w_conf := Fp.f_100;
     w_text := "world";
     w_first := glyph "w" 60;
     w_rest := [glyph "o" 68; glyph "r" 76; glyph "l" 84; glyph "d" 92] |}.

Definition bye : WordRegion :=
  {| w_box := box 10 30 34 40; w_conf := Fp.float_of_int 40;
     w_text := "Bye";
     w_first := glyph "B" 10;
     w_rest := [glyph "y" 18; glyph "e" 26] |}.

Definition hello_world : LineRegion :=
  {| l_box := box 10 10 100 20; l_conf := Fp.float_of_int 97;
     l_text := "Hello world";
     l_first := hello; l_rest := [world] |}.

Definition bye_line : LineRegion :=
  {| l_box := box 10 30 34 40; l_conf := Fp.float_of_int 40;
     l_text := "Bye";
     l_first := bye; l_rest := [] |}.

(** A single line of two words, and a page of two lines. *)
Definition one_line : Page := {| p_first := hello_world; p_rest := [] |}.
Definition two_lines : Page :=
  {| p_first := hello_world; p_rest := [bye_line] |}.

(** A backend double. The backend does not decode an image whose first
    byte is 0; one whose first byte is 1 is a blank page; 2 is the
    one-line page; anything else is the two-line page. Its [Init] fails
    on an empty model. The module has the class [Image].
    The detector answers [(had_error, up_conf, left_conf)]. *)
Definition page_of (pix : Pix) : option Page :=
  match pix_data pix with
  | [1] => None
  | [2] => Some one_line
  | _ => Some two_lines
  end.

Definition lines_text (p : option Page) : string :=
  match p with
  | None => EmptyString
  | Some pg => String.concat Cpp.nl (map l_text (p_lines pg))
  end.

Definition detector (had_error : Z) (up_conf left_conf : Fp.float)
  : Behaviour :=
  {| Version := "5.3.0";
     Init_result := fun model _ =>
       match model with [] => -1 | _ :: _ => 0 end;
     pixReadMem := fun bytes =>
       match bytes with
       | [] => None
       | Byte.x00 :: _ => None
       | b :: _ =>
           Some {| pix_w := 1; pix_h := 1;
                   pix_data := [Z.of_N (Byte.to_N b)] |}
       end;
     segment := page_of;
     recognise := fun _ pix => page_of pix;
     progress_reports := fun _ _ => [30; 70];
     orient_detect := fun _ => (had_error, up_conf, left_conf);
     page_text := lines_text;
     page_hocr := lines_text;
     accepts_variable := fun name _ => String.eqb name "user_defined_dpi";
     default_variable := fun name =>
       if String.eqb name "user_defined_dpi" then Some "0"%string
       else None;
     binds_Image := true |}.

Definition demo : Behaviour :=
  detector 0 (Fp.float_of_int 10) (Fp.float_of_int 0).

Definition lang : option string := Some "eng"%string.
Definition model : list Byte.byte := [Byte.x4d].
Definition empty_model : list Byte.byte := [].

Definition image (first : Byte.byte) : Js.ImageData :=
  {| Js.width := 1; Js.height := 1;
     Js.data := [first; Byte.x00; Byte.x00; Byte.x00] |}.
Definition corrupt_image : Js.ImageData := image Byte.x00.
Definition blank_image : Js.ImageData := image Byte.x01.
Definition line_image : Js.ImageData := image Byte.x02.
Definition page_image : Js.ImageData := image Byte.x03.

(** Images that [loadImage] does not take: one with fewer bytes than
    its two pixels need, one without height, one with twice the bytes
    of its pixel, and one whose bytes are not whole words. *)
Definition short_image : Js.ImageData :=
  {| Js.width := 2; Js.height := 1;
     Js.data := [Byte.x03; Byte.x00; Byte.x00; Byte.x00] |}.
Definition flat_image : Js.ImageData :=
  {| Js.width := 1; Js.height := 0;
     Js.data := [Byte.x03; Byte.x00; Byte.x00; Byte.x00] |}.
Definition long_image : Js.ImageData :=
  {| Js.width := 1; Js.height := 1;
     Js.data := [Byte.x03; Byte.x00; Byte.x00; Byte.x00;
                 Byte.x00; Byte.x00; Byte.x00; Byte.x00] |}.
Definition ragged_image : Js.ImageData :=
  {| Js.width := 1; Js.height := 1;
     Js.data := [Byte.x03; Byte.x00; Byte.x00; Byte.x00; Byte.x00] |}.

(** A fresh session without a progress channel, and sessions with an
    image, and with a model and an image. *)
Definition fresh : Js.OCREngine := Js.new_OCREngine false.
Definition with_image (i : Js.ImageData) : Js.OCREngine :=
  Js.run demo lang [Js.Call_loadImage i] fresh.
Definition ready (i : Js.ImageData) : Js.OCREngine :=
  Js.run demo lang [Js.Call_loadModel model; Js.Call_loadImage i] fresh.

(** A callback that tells the caller's handler. *)
Definition handler : val := Some (fun p => [OnProgress p]).

Definition recognised : Js.OCREngine :=
  Js.run demo lang [Js.Call_getTextBoxes "word" true] (ready line_image).
Definition queries : list Js.Call :=
  [Js.Call_getBoundingBoxes "word"; Js.Call_getTextBoxes "line" true;
   Js.Call_getText false; Js.Native_getHOCR handler;
   Js.Call_getBoundingBoxes "line"].
Definition failed_loads : list Js.Call :=
  [Js.Call_loadImage short_image; Js.Call_loadImage flat_image;
   Js.Call_loadImage long_image; Js.Call_loadImage ragged_image;
   Js.Native_clearImage].

End Fixture.

(* ================================================================== *)
(** * What the specification says, as definitions *)
(* ================================================================== *)

Module Spec.
Import Cpp_types Backend.

(** A raw percentage multiplied by 0.01. The product is taken in
    [double], since the literal is one, and stored in a [float]. *)
Definition times_0_01 (raw : Fp.float) : Fp.float :=
  Fp.float_of_double (Fp.dmul (Fp.double_of_float raw) Fp.d_0_01).

(** A confidence between 0 and 1. *)
Definition unit_interval (x : Fp.float) : Prop :=
  Fp.le Fp.f_0 x = true /\ Fp.le x Fp.f_1 = true.

(** The flags of the element at index [i] of a line of [n] elements:
    [StartOfLine] on the first, [EndOfLine] on the last. *)
Definition flags_at (n i : nat) : LayoutFlags :=
  Z.lor (if Nat.eqb i 0 then StartOfLine else 0)
        (if Nat.eqb (S i) n then EndOfLine else 0).

Definition line_flags (l : LineRegion) : list LayoutFlags :=
  let n := List.length (l_words l) in
  map (flags_at n) (seq 0 n).

Definition has_flag (flag : Z) (tr : TextRect) : bool :=
  negb (Z.land (flags tr) flag =? 0).

(** The item of a region: its box and flags, and, when text is asked
    for, its scaled confidence and its text. *)
Definition item (with_text : bool) (box : IntRect) (fl : LayoutFlags)
    (raw : Fp.float) (txt : string) : TextRect :=
  {| rect := box; flags := fl;
     confidence := if with_text then times_0_01 raw else Fp.f_0;
     text := if with_text then txt else EmptyString |}.

Definition line_item (with_text : bool) (l : LineRegion) : TextRect :=
  item with_text (l_box l) 0 (l_conf l) (l_text l).

(** The items of the words [w :: ws] that end a line; [first] tells
    whether [w] also starts the line. *)
Fixpoint word_items (with_text first : bool) (w : WordRegion)
    (ws : list WordRegion) : list TextRect :=
  match ws with
  | [] =>
      [item with_text (w_box w)
         (Z.lor (if first then StartOfLine else 0) EndOfLine)
         (w_conf w) (w_text w)]
  | w' :: ws' =>
      item with_text (w_box w)
        (Z.lor (if first then StartOfLine else 0) 0)
        (w_conf w) (w_text w)
      :: word_items with_text false w' ws'
  end.

(** The items of a page in reading order, by lines or by words. *)
Definition page_items (unit : TextUnit) (with_text : bool) (p : Page)
  : list TextRect :=
  match unit with
  | Line => map (line_item with_text) (p_lines p)
  | Word =>
      flat_map (fun l => word_items with_text true (l_first l) (l_rest l))
        (p_lines p)
  end.

(** The orientation rule of the specification, in its four steps. *)
Definition orientation_rule (detector_failed : bool)
    (up_conf left_conf : Fp.float) : Orientation :=
  if detector_failed
  then {| rotation := 0; orientation_confidence := Fp.f_0 |}
  else
    let axis_0_180 :=
      Fp.gt (Fp.double_of_float
               (Fp.fsub (Fp.fabs up_conf) (Fp.fabs left_conf)))
            Fp.d_5_0 in
    {| rotation :=
         if axis_0_180
         then if Fp.gt up_conf Fp.f_0 then 0 else 180
         else if Fp.lt left_conf Fp.f_0 then 90 else 270;
       orientation_confidence := Fp.f_1 |}.

End Spec.

(* ================================================================== *)
(** * Vocabulary for the properties of whole calls *)
(* ================================================================== *)

Module Contract.
Import Cpp_types Backend Emscripten.

Definition is_some {A} (o : option A) : bool :=
  match o with Some _ => true | None => false end.

Definition is_nil {A} (l : list A) : bool :=
  match l with [] => true | _ :: _ => false end.

(** The percentages posted on the progress channel, in order. *)
Definition posted (events : list JsEvent) : list Z :=
  flat_map (fun ev => match ev with
                      | PostMessage p => [p]
                      | OnProgress _ => []
                      end) events.

(** The methods of the wrapper class, as opposed to the methods that
    only the native object has. *)
Definition is_wrapper_call (c : Js.Call) : bool :=
  match c with
  | Js.Call_loadModel _ | Js.Call_loadImage _ | Js.Call_getBoundingBoxes _
  | Js.Call_getTextBoxes _ _ | Js.Call_getText _ | Js.Call_getOrientation =>
      true
  | _ => false
  end.

(** The calls that neither analyse the page nor replace the image:
    loading a model, reading or setting a variable, and detecting the
    orientation. *)
Definition outside_analysis (c : Js.Call) : bool :=
  match c with
  | Js.Call_loadModel _ | Js.Native_loadModel _ _
  | Js.Native_getVariable _ | Js.Native_setVariable _ _
  | Js.Call_getOrientation | Js.Native_getOrientation => true
  | _ => false
  end.

(** The unit string of a query is one of the two that the [switch] of
    [_textUnitForUnit] has a case for; a query without a unit passes. *)
Definition unit_accepted (q : Js.Call) : bool :=
  match q with
  | Js.Call_getBoundingBoxes unit | Js.Call_getTextBoxes unit _ =>
      Js.valid_unit unit
  | _ => true
  end.

(** The enumerator of the two cases of that [switch]. *)
Definition text_unit (unit : string) : option TextUnit :=
  if String.eqb unit "word" then Some Word
  else if String.eqb unit "line" then Some Line
  else None.

(** The method of the native object that a wrapper query calls, with
    the arguments it passes: the enumerator of the unit, and the arrow
    function as progress callback. *)
Definition forwards_to (q : Js.Call) (this : Js.OCREngine)
  : option Js.Call :=
  match q with
  | Js.Call_getBoundingBoxes unit =>
      option_map Js.Native_getBoundingBoxes (text_unit unit)
  | Js.Call_getTextBoxes unit onProgress =>
      option_map
        (fun u => Js.Native_getTextBoxes u
                    (Some (Js.progress_arrow onProgress this)))
        (text_unit unit)
  | Js.Call_getText onProgress =>
      Some (Js.Native_getText (Some (Js.progress_arrow onProgress this)))
  | Js.Call_getOrientation => Some Js.Native_getOrientation
  | _ => None
  end.

(** What the wrapper returns for a native result: a vector is copied
    into an array, anything else is handed on. *)
Definition as_js (r : Js.Completion Js.Value) : Js.Completion Js.Value :=
  match r with
  | Js.Return (Js.V_vector boxes) =>
      Js.Return (Js.V_array (Js.jsArrayFromStdVector boxes))
  | _ => r
  end.



(** An item as [GetBoxes] leaves it without text: the confidence and
    the text of a default-constructed [TextRect]. *)
Definition without_text (tr : TextRect) : Prop :=
  confidence tr = Fp.f_0 /\ text tr = EmptyString.

(** The boxes and the texts of the regions of a page at the level of a
    unit, in reading order. *)
Definition region_boxes (unit : TextUnit) (p : Page) : list IntRect :=
  match unit with
  | Line => map l_box (p_lines p)
  | Word => map w_box (flat_map l_words (p_lines p))
  end.

Definition region_texts (unit : TextUnit) (p : Page) : list string :=
  match unit with
  | Line => map l_text (p_lines p)
  | Word => map w_text (flat_map l_words (p_lines p))
  end.

(** The analysis flags presuppose the load flags: no layout without an
    image, no recognition without an image and a model. *)
Definition loaded_before_analysed (s : Js.OCREngine) : bool :=
  implb (Js.layoutDone s) (Js.imageLoaded s)
  && implb (Js.ocrDone s) (Js.imageLoaded s && Js.modelLoaded s).

(** Rotations by a multiple of a quarter turn, in degrees. *)
Definition quarter_turns : list Z := [0; 90; 180; 270].

End Contract.

(* ================================================================== *)
(** * Tactics: one call, by cases *)
(* ================================================================== *)

(** Unfold a wrapper or native call down to the flags and counters, and
    split on every condition it tests. *)
Ltac js_unfold :=
  unfold Js.rejected, Js.image_changed, Js.succeeds,
    Js.layout_budget, Js.recognition_budget,
    Js.layout_passes, Js.recognition_passes,
    Js.modelLoaded, Js.imageLoaded, Js.layoutDone, Js.ocrDone,
    Js.after, Js.outcome, Js.events, Js.call,
    Js.loadModel, Js.engine_loadModel, Js.loadImage, Js.new_Image,
    Js.new_Uint32Array, Js.engineImageBuf_set, Js.truthy, Js.result_error,
    Js.getBoundingBoxes, Js.getTextBoxes,
    Js.getText, Js.getOrientation,
    Js._checkImageLoaded, Js._checkModelLoaded, Js._textUnitForUnit,
    Js.bind, Js.ret, Js.throw, Js.get_this, Js.engine_call,
    Js.engine_call_cb, Js.set_imageLoaded, Js.set_modelLoaded in *.

Ltac cpp_unfold :=
  unfold Cpp.GetBoundingBoxes, Cpp.GetTextBoxes, Cpp.GetText, Cpp.GetHOCR,
    Cpp.DoOCR, Cpp.ProgressChanged, Cpp.LoadImage, Cpp.LoadModel,
    Cpp.ClearImage,
    Cpp.GetVariable, Cpp.SetVariable, Backend.SetVariable,
    Backend.GetVariableAsString,
    Cpp.set_tesseract, Backend.Recognize, Backend.Init, Backend.AnalyseLayout,
    Backend.SetImage, Backend.InitForAnalysePage, Backend.Clear in *.

Ltac destruct_innermost x :=
  lazymatch x with
  | context [match ?y with _ => _ end] => destruct_innermost y
  | _ => destruct x eqn:?
  end.

Ltac split_match :=
  repeat (match goal with
          | |- context [match ?x with _ => _ end] => destruct_innermost x
          end; cbn in *).

Ltac crush_call :=
  js_unfold; cpp_unfold; cbn in *; split_match; cbn in *.

Ltac flip_negb :=
  repeat match goal with
    | H : negb ?b = _ |- _ => is_var b; destruct b; try discriminate H; clear H
    end.

(** Close a case whose conditions contradict each other. *)
Ltac negb_conflict :=
  match goal with
  | H : ?x = true, H' : negb ?x = true |- _ =>
      rewrite H in H'; discriminate H'
  | H : ?x = false, H' : negb ?x = false |- _ =>
      rewrite H in H'; discriminate H'
  end.

(** Name the results of the native queries that the goal mentions. *)
Ltac name_native_results :=
  repeat match goal with
    | |- context [Cpp.GetBoundingBoxes ?a ?b ?c] =>
        destruct (Cpp.GetBoundingBoxes a b c)
    | |- context [Cpp.GetTextBoxes ?a ?b ?c ?d] =>
        destruct (Cpp.GetTextBoxes a b c d) as [[? ?] ?]
    | |- context [Cpp.GetText ?a ?b ?c] =>
        destruct (Cpp.GetText a b c) as [[? ?] ?]
    end.

(* ================================================================== *)
(** * Rounding: results bounded by a power of two *)
(* ================================================================== *)

(** The lemmas of this part follow one rounding of [SpecFloat] step by
    step: the right shift of the mantissa, the choice between the two
    neighbours, and the second shift that absorbs a carry. *)

(** [iter_pos] is iteration counted in [nat]. *)
Lemma iter_pos_nat {A} (f : A -> A) p x :
  iter_pos f p x = Nat.iter (Pos.to_nat p) f x.
Proof.
  revert x. induction p as [p IH | p IH |]; intro x; cbn [iter_pos].
  - rewrite !IH, Pos2Nat.inj_xI.
    replace (S (2 * Pos.to_nat p)) with (Pos.to_nat p + S (Pos.to_nat p))%nat by lia.
    rewrite Nat.iter_add. f_equal. now rewrite Nat.iter_succ_r.
  - rewrite !IH, Pos2Nat.inj_xO.
    replace (2 * Pos.to_nat p)%nat with (Pos.to_nat p + Pos.to_nat p)%nat by lia.
    now rewrite Nat.iter_add.
  - reflexivity.
Qed.

(** One shift halves the mantissa and keeps what it drops in the two
    sticky bits. *)
Lemma shr_1_m mrs : 0 <= shr_m mrs -> shr_m (shr_1 mrs) = shr_m mrs / 2.
Proof.
  destruct mrs as [m r s]; cbn [shr_m]. intros Hm.
  destruct m as [|[p|p|]|p]; cbn [shr_1 shr_m]; try lia.
  all: try reflexivity.
  - apply Z.div_unique with 1; lia.
  - apply Z.div_unique with 0; lia.
Qed.

Lemma shr_1_sticky mrs :
  0 <= shr_m mrs ->
  orb (shr_r (shr_1 mrs)) (shr_s (shr_1 mrs))
  = orb (Z.odd (shr_m mrs)) (orb (shr_r mrs) (shr_s mrs)).
Proof.
  destruct mrs as [m r s]; cbn [shr_m shr_r shr_s]. intros Hm.
  destruct m as [|[p|p|]|p]; cbn; try lia; reflexivity.
Qed.

(** After [j] shifts the mantissa is the quotient by [2^j], and both
    sticky bits are clear when the division is exact. *)
Lemma shr_iter m j :
  0 <= m ->
  let mrs := Nat.iter j shr_1 (Build_shr_record m false false) in
  shr_m mrs = m / 2 ^ Z.of_nat j /\
  (m mod 2 ^ Z.of_nat j = 0 -> orb (shr_r mrs) (shr_s mrs) = false).
Proof.
  intros Hm. induction j as [|j IH].
  - cbn. split; [now rewrite Z.div_1_r | reflexivity].
  - cbn zeta in *. rewrite Nat.iter_succ.
    set (mrs := Nat.iter j shr_1 _) in *. destruct IH as [IHm IHs].
    assert (Hp : 0 < 2 ^ Z.of_nat j) by (apply Z.pow_pos_nonneg; lia).
    assert (Hq : 0 <= shr_m mrs) by (rewrite IHm; apply Z.div_pos; lia).
    assert (E : 2 ^ Z.of_nat (S j) = 2 ^ Z.of_nat j * 2)
      by (rewrite Nat2Z.inj_succ, Z.pow_succ_r; lia).
    split.
    + rewrite shr_1_m, IHm, E, Z.div_div by lia. reflexivity.
    + intros Hz. rewrite shr_1_sticky by exact Hq.
      rewrite E in Hz.
      assert (Hd : m = 2 ^ Z.of_nat j * 2 * (m / (2 ^ Z.of_nat j * 2)))
        by (apply Z.div_exact; lia).
      set (q := m / (2 ^ Z.of_nat j * 2)) in *.
      assert (Hm0 : m mod 2 ^ Z.of_nat j = 0).
      { rewrite Hd. replace (2 ^ Z.of_nat j * 2 * q) with ((2 * q) * 2 ^ Z.of_nat j) by lia.
        apply Z.mod_mul. lia. }
      rewrite (IHs Hm0), IHm, orb_false_r.
      replace (m / 2 ^ Z.of_nat j) with (2 * q).
      * now rewrite Z.odd_mul.
      * apply Z.div_unique with 0; lia.
Qed.

Lemma loc_exact_of_sticky mrs :
  orb (shr_r mrs) (shr_s mrs) = false -> loc_of_shr_record mrs = loc_Exact.
Proof. destruct mrs as [m [|] [|]]; cbn; congruence. Qed.

Lemma shr_spec m e n :
  0 <= m -> 0 <= n ->
  let res := shr (Build_shr_record m false false) e n in
  shr_m (fst res) = m / 2 ^ n /\ snd res = e + n /\
  (m mod 2 ^ n = 0 -> loc_of_shr_record (fst res) = loc_Exact).
Proof.
  intros Hm Hn. destruct n as [|p|p]; cbn [shr fst snd]; try lia.
  - cbn [shr_m]. rewrite Z.div_1_r. repeat split; auto; lia.
  - rewrite iter_pos_nat.
    destruct (shr_iter m (Pos.to_nat p) Hm) as [H1 H2].
    rewrite positive_nat_Z in H1, H2.
    repeat split; auto. intros Hz. now apply loc_exact_of_sticky, H2.
Qed.

Lemma shr_neg mrs e n : n <= 0 -> shr mrs e n = (mrs, e).
Proof. destruct n; cbn; trivial; lia. Qed.

Lemma round_nearest_even_bounds m l :
  m <= round_nearest_even m l <= m + 1.
Proof.
  destruct l as [|[| |]]; cbn [round_nearest_even]; try lia.
  destruct (Z.even m); lia.
Qed.

(** The number of binary digits of a positive mantissa. *)
Lemma digits2_pos_bounds p :
  2 ^ (Zpos (digits2_pos p) - 1) <= Zpos p < 2 ^ Zpos (digits2_pos p).
Proof.
  induction p as [p IH | p IH |]; cbn [digits2_pos].
  - rewrite Pos2Z.inj_succ.
    replace (Z.succ (Zpos (digits2_pos p)) - 1) with (Z.succ (Zpos (digits2_pos p) - 1)) by lia.
    rewrite !Z.pow_succ_r by lia. lia.
  - rewrite Pos2Z.inj_succ.
    replace (Z.succ (Zpos (digits2_pos p)) - 1) with (Z.succ (Zpos (digits2_pos p) - 1)) by lia.
    rewrite !Z.pow_succ_r by lia. lia.
  - cbn. lia.
Qed.

Lemma Zdigits2_le_pow m j :
  0 <= m -> 0 <= j -> m <= 2 ^ j -> Zdigits2 m <= j + 1.
Proof.
  intros Hm Hj Hle. destruct m as [|p|p]; cbn [Zdigits2]; try lia.
  destruct (Z_le_gt_dec (Zpos (digits2_pos p)) (j + 1)) as [|Hgt]; trivial.
  pose proof (digits2_pos_bounds p) as [Hlo _].
  assert (2 ^ (j + 1) <= 2 ^ (Zpos (digits2_pos p) - 1)) by (apply Z.pow_le_mono_r; lia).
  assert (0 < 2 ^ j) by (apply Z.pow_pos_nonneg; lia).
  replace (j + 1) with (Z.succ j) in * by lia.
  rewrite Z.pow_succ_r in * by lia. lia.
Qed.

(** Rounding never crosses a power of two that the format represents: a
    value of at most [2^k] is rounded to a value of at most [2^k]. *)
Section RoundAux.
Variables prec emax : Z.
Hypothesis Hprec : 0 < prec.

Lemma binary_round_aux_le_pow2 s m e k :
  0 <= m -> e <= fexp prec emax (Zdigits2 m + e) ->
  e <= k -> m <= 2 ^ (k - e) ->
  emin prec emax <= k + 1 - prec -> k + 1 <= emax ->
  Fp.le_pow2 prec s k (binary_round_aux prec emax s m e loc_Exact).
Proof.
  intros Hm He Hek Hle Hemin Hemax.
  unfold binary_round_aux, shr_fexp. cbn [shr_record_of_loc].
  set (n := fexp prec emax (Zdigits2 m + e) - e).
  assert (Hn : 0 <= n) by (unfold n; lia).
  destruct (shr_spec m e n Hm Hn) as (Hq & He1 & Hex).
  destruct (shr _ e n) as [mrs1 e1]. cbn [fst snd] in Hq, He1, Hex.
  assert (Hd : Zdigits2 m + e <= k + 1).
  { pose proof (Zdigits2_le_pow m (k - e) Hm). lia. }
  assert (He1k : e1 <= k + 1 - prec).
  { subst e1 n. unfold fexp in *. lia. }
  assert (Hp2 : 2 ^ (k - e) = 2 ^ (k - e1) * 2 ^ n).
  { rewrite <- Z.pow_add_r by lia. f_equal. lia. }
  assert (Hpn : 0 < 2 ^ n) by (apply Z.pow_pos_nonneg; lia).
  assert (Hpk : 0 < 2 ^ (k - e1)) by (apply Z.pow_pos_nonneg; lia).
  set (m1 := round_nearest_even (shr_m mrs1) (loc_of_shr_record mrs1)).
  assert (Hm1 : 0 <= m1 <= 2 ^ (k - e1)).
  { pose proof (round_nearest_even_bounds (shr_m mrs1) (loc_of_shr_record mrs1)) as Hb.
    fold m1 in Hb. rewrite Hq in *.
    assert (0 <= m / 2 ^ n) by (apply Z.div_pos; lia).
    assert (m / 2 ^ n <= 2 ^ (k - e1)).
    { apply Z.div_le_upper_bound; lia. }
    split; [lia|].
    destruct (Z.eq_dec (m / 2 ^ n) (2 ^ (k - e1))) as [Heq|]; [|lia].
    assert (Hml : 2 ^ n * (m / 2 ^ n) <= m) by (apply Z.mul_div_le; lia).
    assert (Hmeq : m = 2 ^ (k - e1) * 2 ^ n) by nia.
    assert (Hz : m mod 2 ^ n = 0) by (rewrite Hmeq; apply Z.mod_mul; lia).
    unfold m1. rewrite (Hex Hz). cbn. rewrite Hq. lia. }
  clearbody m1. clear Hq Hex.
  set (n2 := fexp prec emax (Zdigits2 m1 + e1) - e1).
  assert (He1min : emin prec emax <= e1) by (subst e1 n; unfold fexp; lia).
  destruct (Z_le_gt_dec 0 n2) as [Hn2|Hn2].
  - destruct (shr_spec m1 e1 n2 (proj1 Hm1) Hn2) as (Hq2 & He2 & _).
    destruct (shr _ e1 n2) as [mrs2 e2]. cbn [fst snd] in Hq2, He2.
    assert (Hd1 : Zdigits2 m1 + e1 <= k + 1).
    { pose proof (Zdigits2_le_pow m1 (k - e1) (proj1 Hm1)). lia. }
    assert (He2k : e2 <= k + 1 - prec) by (subst e2 n2; unfold fexp in *; lia).
    assert (Hpn2 : 0 < 2 ^ n2) by (apply Z.pow_pos_nonneg; lia).
    assert (Hp3 : 2 ^ (k - e1) = 2 ^ (k - e2) * 2 ^ n2).
    { rewrite <- Z.pow_add_r by lia. f_equal. lia. }
    assert (Hm2 : 0 <= shr_m mrs2 <= 2 ^ (k - e2)).
    { rewrite Hq2. split; [apply Z.div_pos; lia|].
      assert (0 < 2 ^ (k - e2)) by (apply Z.pow_pos_nonneg; lia).
      apply Z.div_le_upper_bound; nia. }
    destruct (shr_m mrs2) as [|p|p]; cbn [Fp.le_pow2]; try lia; trivial.
    replace (e2 <=? emax - prec) with true by (symmetry; apply Z.leb_le; lia).
    cbn [Fp.le_pow2]. repeat split; lia.
  - rewrite shr_neg by lia. cbn [shr_m].
    destruct m1 as [|p|p]; cbn [Fp.le_pow2]; try lia; trivial.
    replace (e1 <=? emax - prec) with true by (symmetry; apply Z.leb_le; lia).
    cbn [Fp.le_pow2]. repeat split; lia.
Qed.
End RoundAux.

(** The left shift that aligns a short mantissa keeps the value. *)
Lemma pos_iter_xO m d : Zpos (Pos.iter xO m d) = Zpos m * 2 ^ Zpos d.
Proof.
  induction d as [|d IH] using Pos.peano_ind.
  - cbn. lia.
  - rewrite Pos.iter_succ, Pos2Z.inj_succ, Z.pow_succ_r by lia.
    change (Zpos (Pos.iter xO m d)~0) with (2 * Zpos (Pos.iter xO m d)). lia.
Qed.

Lemma digits2_pos_iter_xO m d :
  Zpos (digits2_pos (Pos.iter xO m d)) = Zpos (digits2_pos m) + Zpos d.
Proof.
  induction d as [|d IH] using Pos.peano_ind.
  - cbn. lia.
  - rewrite Pos.iter_succ. cbn [digits2_pos]. lia.
Qed.

Lemma shl_align_spec mx ex ex' :
  let res := shl_align mx ex ex' in
  snd res = Z.min ex ex' /\
  Zpos (fst res) = Zpos mx * 2 ^ (ex - snd res) /\
  Zpos (digits2_pos (fst res)) + snd res = Zpos (digits2_pos mx) + ex.
Proof.
  unfold shl_align. destruct (ex' - ex) as [|d|d] eqn:E; cbn [fst snd].
  - replace (ex - ex) with 0 by lia. cbn. lia.
  - replace (ex - ex) with 0 by lia. cbn. lia.
  - rewrite pos_iter_xO, digits2_pos_iter_xO.
    replace (ex - ex') with (Zpos d) by lia. lia.
Qed.

Section RoundTo.
Variables prec emax : Z.
Hypothesis Hprec : 0 < prec.

Lemma binary_round_le_pow2 s m e k :
  e <= k -> Zpos m <= 2 ^ (k - e) ->
  emin prec emax <= k + 1 - prec -> k + 1 <= emax ->
  Fp.le_pow2 prec s k (binary_round prec emax s m e).
Proof.
  intros Hek Hle Hemin Hemax. unfold binary_round.
  destruct (shl_align_spec m e (fexp prec emax (Zpos (digits2_pos m) + e)))
    as (He & Hm & Hd).
  destruct (shl_align _ _ _) as [mz ez]. cbn [fst snd] in He, Hm, Hd.
  apply binary_round_aux_le_pow2; try lia.
  - cbn [Zdigits2]. rewrite Hd. lia.
  - rewrite Hm. replace (k - ez) with ((k - e) + (e - ez)) by lia.
    rewrite Z.pow_add_r by lia.
    apply Z.mul_le_mono_nonneg_r; [apply Z.pow_nonneg|]; lia.
Qed.

Lemma binary_round_aux_canonical s m e :
  bounded prec emax m e = true ->
  binary_round_aux prec emax s (Zpos m) e loc_Exact = S754_finite s m e.
Proof.
  unfold bounded, canonical_mantissa. intros H.
  apply andb_prop in H as [Hc Hb].
  apply Z.eqb_eq in Hc.
  unfold binary_round_aux, shr_fexp. cbn [Zdigits2 shr_record_of_loc].
  rewrite Hc, Z.sub_diag. cbn [shr shr_m loc_of_shr_record round_nearest_even].
  cbn [Zdigits2 shr_record_of_loc]. rewrite Hc, Z.sub_diag. cbn [shr shr_m].
  now rewrite Hb.
Qed.
End RoundTo.

Lemma bounded_digits prec emax m e :
  bounded prec emax m e = true ->
  fexp prec emax (Zpos (digits2_pos m) + e) = e /\ e <= emax - prec.
Proof.
  unfold bounded, canonical_mantissa. intros H.
  apply andb_prop in H as [Hc Hb]. apply Z.eqb_eq in Hc. apply Z.leb_le in Hb. auto.
Qed.

(** The conversion of a [float] to [double] is exact. *)
Lemma double_of_float_finite s m e :
  bounded 24 128 m e = true ->
  exists mz ez,
    Fp.double_of_float (S754_finite s m e) = S754_finite s mz ez /\
    ez <= e /\ Zpos mz = Zpos m * 2 ^ (e - ez) /\ Zpos (digits2_pos mz) = 53.
Proof.
  intros Hb. apply bounded_digits in Hb as [Hc He].
  unfold Fp.double_of_float, Fp.round_to, binary_round,
    Fp.double_prec, Fp.double_emax.
  destruct (shl_align_spec m e (fexp 53 1024 (Zpos (digits2_pos m) + e)))
    as (Hez & Hm & Hd).
  destruct (shl_align _ _ _) as [mz ez]. cbn [fst snd] in Hez, Hm, Hd.
  unfold fexp, emin in *.
  assert (0 < Zpos (digits2_pos m)) by lia.
  exists mz, ez. split; [|lia].
  apply binary_round_aux_canonical.
  unfold bounded, canonical_mantissa, fexp, emin.
  apply andb_true_intro; split; [apply Z.eqb_eq | apply Z.leb_le]; lia.
Qed.

(** The bound, read as a comparison with the float [2^k]. *)
Lemma le_pow2_SFleb prec s k r m1 :
  0 < prec -> Fp.le_pow2 prec s k r -> Zpos m1 = 2 ^ (prec - 1) ->
  SFleb r (S754_finite false m1 (k + 1 - prec)) = true.
Proof.
  intros Hprec H Hm1.
  destruct r as [s'| | |s' m' e']; cbn [Fp.le_pow2] in H; try contradiction.
  - reflexivity.
  - destruct H as (-> & He & Hm). unfold SFleb, SFcompare.
    destruct s; [reflexivity|].
    destruct (Z.compare_spec e' (k + 1 - prec)) as [Heq|Hlt|Hgt].
    + rewrite Heq in Hm.
      replace (k - (k + 1 - prec)) with (prec - 1) in Hm by lia.
      rewrite <- Hm1 in Hm. fold (Pos.compare m' m1).
      destruct (Pos.compare_spec m' m1); try reflexivity; lia.
    + reflexivity.
    + lia.
Qed.

Lemma le_pow2_nonneg prec k r :
  Fp.le_pow2 prec false k r -> SFleb Fp.f_0 r = true.
Proof.
  destruct r as [s'| | |s' m' e']; cbn [Fp.le_pow2]; try contradiction.
  - reflexivity.
  - intros (-> & _). reflexivity.
Qed.

(** A score below 100 gives a product that is at most one. *)
Lemma times_0_01_le_pow2 m e :
  bounded 24 128 m e = true ->
  e < -17 \/ (e = -17 /\ Zpos m <= 13107199) ->
  Fp.le_pow2 24 false 0 (Spec.times_0_01 (S754_finite false m e)).
Proof.
  intros Hb Hle.
  destruct (double_of_float_finite false m e Hb) as (mz & ez & Hd & Hez & Hmz & Hdig).
  apply bounded_digits in Hb as [Hc He].
  unfold Spec.times_0_01. rewrite Hd.
  unfold Fp.dmul, Fp.d_0_01, Fp.double_prec, Fp.double_emax.
  cbn [SFmul xorb].
  assert (Hm24 : Zpos m < 2 ^ 24).
  { pose proof (digits2_pos_bounds m) as [_ Hhi].
    assert (Zpos (digits2_pos m) <= 24) by (unfold fexp, emin in Hc; lia).
    eapply Z.lt_le_trans; [exact Hhi|]. apply Z.pow_le_mono_r; lia. }
  assert (Hprod : Zpos (mz * 5764607523034235) <= 2 ^ (0 - (ez + -59))).
  { rewrite Pos2Z.inj_mul, Hmz.
    replace (0 - (ez + -59)) with (76 + (-17 - e) + (e - ez)) by lia.
    rewrite !Z.pow_add_r by lia.
    assert (0 < 2 ^ (e - ez)) by (apply Z.pow_pos_nonneg; lia).
    assert (Hcore : Zpos m * 5764607523034235 <= 2 ^ 76 * 2 ^ (-17 - e)).
    { destruct Hle as [Hlt | [-> Hm]].
      - assert (2 ^ 1 <= 2 ^ (-17 - e)) by (apply Z.pow_le_mono_r; lia).
        change (2 ^ 1) with 2 in *. change (2 ^ 24) with 16777216 in *.
        change (2 ^ 76) with 75557863725914323419136. lia.
      - change (2 ^ (-17 - -17)) with 1.
        change (2 ^ 76) with 75557863725914323419136. lia. }
    nia. }
  assert (Hdbl : Fp.le_pow2 53 false 0
            (binary_round_aux 53 1024 false (Zpos (mz * 5764607523034235))
               (ez + -59) loc_Exact)).
  { apply binary_round_aux_le_pow2; try (unfold emin; lia).
    cbn [Zdigits2].
    pose proof (digits2_pos_bounds (mz * 5764607523034235)) as [_ Hhi].
    assert (52 < Zpos (digits2_pos (mz * 5764607523034235))).
    { apply (Z.pow_lt_mono_r_iff 2); lia. }
    unfold fexp, emin. lia. }
  destruct (binary_round_aux 53 1024 false _ _ loc_Exact) as [s'| | |s' m' e'];
    cbn [Fp.le_pow2] in Hdbl; try contradiction.
  - subst s'. cbn. reflexivity.
  - destruct Hdbl as (-> & He' & Hm').
    unfold Fp.float_of_double, Fp.round_to, Fp.float_prec, Fp.float_emax.
    apply binary_round_le_pow2; try (unfold emin; lia).
Qed.

(** A percentage times 0.01 lies between 0 and 1. *)
Lemma times_0_01_bounds raw :
  Backend.percentage raw -> Spec.unit_interval (Spec.times_0_01 raw).
Proof.
  unfold Backend.percentage, Spec.unit_interval, Fp.le, Fp.is_float,
    Fp.float_prec, Fp.float_emax.
  intros (Hv & H0 & H100). destruct raw as [s|s| |s m e].
  - destruct s; split; reflexivity.
  - destruct s; discriminate.
  - discriminate.
  - destruct s; [discriminate|]. cbn [valid_binary] in Hv.
    unfold SFleb, SFcompare, Fp.f_100 in H100.
    assert (Hprec : 0 < 24) by reflexivity.
    assert (Hle : e < -17 \/ (e = -17 /\ Zpos m <= 13107199)
                  \/ (e = -17 /\ m = 13107200%positive)).
    { destruct (Z.compare_spec e (-17)) as [->|Hlt|Hgt]; try discriminate.
      - pose proof (Pos.compare_spec m 13107200) as Hc.
        unfold Pos.compare in Hc.
        destruct Hc as [->|Hlt|Hgt]; try discriminate.
        + right; right; split; reflexivity.
        + right; left; split; [reflexivity|].
          apply Z.lt_succ_r. exact Hlt.
      - left. exact Hlt. }
    clear H0 H100.
    destruct Hle as [Hlt | [[-> Hm] | [-> ->]]].
    + assert (H : Fp.le_pow2 24 false 0 (Spec.times_0_01 (S754_finite false m e))).
      { apply times_0_01_le_pow2; [exact Hv | left; exact Hlt]. }
      split; [eapply le_pow2_nonneg; exact H|].
      apply (le_pow2_SFleb 24 false 0 _ 8388608);
        [exact Hprec | exact H | reflexivity].
    + assert (H : Fp.le_pow2 24 false 0 (Spec.times_0_01 (S754_finite false m (-17)))).
      { apply times_0_01_le_pow2; [exact Hv | right; split; [reflexivity | exact Hm]]. }
      split; [eapply le_pow2_nonneg; exact H|].
      apply (le_pow2_SFleb 24 false 0 _ 8388608);
        [exact Hprec | exact H | reflexivity].
    + split; vm_compute; reflexivity.
Qed.

(* ================================================================== *)
(** * Box extraction *)
(* ================================================================== *)

Section Boxes.
Import Cpp_types Backend.

(** One turn of the [do ... while] loop. *)
Lemma GetBoxes_loop_unfold unit with_text level it boxes :
  Cpp.GetBoxes_loop unit with_text level it boxes =
  match Next level it with
  | Some it' =>
      Cpp.GetBoxes_loop unit with_text level it'
        (boxes ++ [Cpp.GetBoxes_item unit with_text level it])
  | None => boxes ++ [Cpp.GetBoxes_item unit with_text level it]
  end.
Proof.
  rewrite Cpp.GetBoxes_loop_equation_1.
  destruct (inspect (Next level it)) as [[it'|] e]; cbn; now rewrite e.
Qed.

Lemma item_of_line with_text it :
  Cpp.GetBoxes_item Line with_text RIL_TEXTLINE it =
  Spec.line_item with_text (it_line it).
Proof. destruct with_text; reflexivity. Qed.

Lemma item_of_word with_text it :
  it_symbol_first it = true ->
  Cpp.GetBoxes_item Word with_text RIL_WORD it =
  Spec.item with_text (w_box (it_word it))
    (Z.lor (if it_word_first it then StartOfLine else 0)
           (if IsAtFinalElement RIL_TEXTLINE RIL_WORD it
            then EndOfLine else 0))
    (w_conf (it_word it)) (w_text (it_word it)).
Proof.
  intros Hs. unfold Cpp.GetBoxes_item, Spec.item, Spec.times_0_01.
  cbn [TextUnit_lt TextUnit_value Z.ltb Z.compare IsAtBeginningOf
       BoundingBox Confidence GetUTF8Text_at].
  rewrite Hs, andb_true_r.
  destruct with_text, (it_word_first it),
    (IsAtFinalElement RIL_TEXTLINE RIL_WORD it); reflexivity.
Qed.

(** Iterating by lines visits the current line and the lines after it. *)
Lemma GetBoxes_loop_lines with_text ls :
  forall it boxes,
    it_lines_after it = ls ->
    Cpp.GetBoxes_loop Line with_text RIL_TEXTLINE it boxes =
    boxes ++ map (Spec.line_item with_text) (it_line it :: ls).
Proof.
  induction ls as [|l ls IH]; intros it boxes Hls;
    rewrite GetBoxes_loop_unfold, item_of_line;
    cbn [Next]; unfold next_line; rewrite Hls.
  - reflexivity.
  - rewrite (IH (enter_line l ls)) by reflexivity.
    rewrite <- app_assoc. reflexivity.
Qed.

(** Iterating by words visits the rest of the current line, then the
    lines after it. *)
Lemma GetBoxes_loop_words with_text ls :
  forall ws it boxes,
    it_lines_after it = ls -> it_words_after it = ws ->
    it_symbol_first it = true ->
    Cpp.GetBoxes_loop Word with_text RIL_WORD it boxes =
    boxes
    ++ Spec.word_items with_text (it_word_first it) (it_word it) ws
    ++ flat_map
         (fun l => Spec.word_items with_text true (l_first l) (l_rest l)) ls.
Proof.
  induction ls as [|l ls IHl].
  - induction ws as [|w ws IHw]; intros it boxes Hls Hws Hs;
      rewrite GetBoxes_loop_unfold, item_of_word by exact Hs;
      unfold IsAtFinalElement; cbn [Next]; unfold next_word, next_line;
      rewrite Hws, ?Hls.
    + reflexivity.
    + rewrite (IHw (enter_word it w ws)) by (try reflexivity; exact Hls).
      rewrite <- app_assoc. reflexivity.
  - induction ws as [|w ws IHw]; intros it boxes Hls Hws Hs;
      rewrite GetBoxes_loop_unfold, item_of_word by exact Hs;
      unfold IsAtFinalElement; cbn [Next]; unfold next_word, next_line;
      rewrite Hws, ?Hls.
    + rewrite (IHl (l_rest l) (enter_line l ls)) by reflexivity.
      rewrite <- app_assoc. reflexivity.
    + rewrite (IHw (enter_word it w ws)) by (try reflexivity; exact Hls).
      rewrite <- app_assoc. reflexivity.
Qed.

(** [GetBoxes] returns the items of the page that the backend holds. *)
Lemma GetBoxes_page unit with_text this :
  Cpp.GetBoxes unit with_text this =
  match page_res_ (Cpp.tesseract_ this) with
  | None => []
  | Some p => Spec.page_items unit with_text p
  end.
Proof.
  unfold Cpp.GetBoxes, GetIterator.
  destruct (page_res_ (Cpp.tesseract_ this)) as [p|]; [|reflexivity].
  cbn [option_map]. destruct unit; cbn [Cpp.iterator_level_from_unit].
  - rewrite (GetBoxes_loop_words with_text (p_rest p) (l_rest (p_first p)))
      by reflexivity.
    reflexivity.
  - rewrite (GetBoxes_loop_lines with_text (p_rest p)) by reflexivity.
    reflexivity.
Qed.

Lemma word_items_flags with_text w ws :
  map flags (Spec.word_items with_text true w ws) =
  map (Spec.flags_at (S (List.length ws))) (seq 0 (S (List.length ws))).
Proof.
  assert (H : forall ws w k n,
             n = (k + S (List.length ws))%nat ->
             map flags (Spec.word_items with_text (Nat.eqb k 0) w ws) =
             map (Spec.flags_at n) (seq k (S (List.length ws)))).
  { clear. induction ws as [|w' ws IH]; intros w k n ->.
    - cbn. unfold Spec.flags_at.
      replace (Nat.eqb (S k) (k + 1)) with true
        by (symmetry; apply Nat.eqb_eq; lia).
      reflexivity.
    - cbn [Spec.word_items map seq Datatypes.length Spec.item flags].
      f_equal.
      + unfold Spec.flags_at.
        replace (Nat.eqb (S k) (k + S (S (List.length ws)))) with false
          by (symmetry; apply Nat.eqb_neq; lia).
        reflexivity.
      + apply (IH w' (S k)). lia. }
  apply (H ws w 0%nat). reflexivity.
Qed.

Lemma page_items_word_flags with_text p :
  map flags (Spec.page_items Word with_text p) =
  flat_map Spec.line_flags (p_lines p).
Proof.
  unfold Spec.page_items. induction (p_lines p) as [|l ls IH].
  - reflexivity.
  - cbn [flat_map]. rewrite map_app, IH. f_equal.
    apply word_items_flags.
Qed.

Lemma page_items_line_flags with_text p :
  Forall (fun tr => flags tr = 0) (Spec.page_items Line with_text p).
Proof.
  unfold Spec.page_items. apply Forall_forall. intros tr Hin.
  apply in_map_iff in Hin as (l & <- & _). reflexivity.
Qed.

(** The confidences of the items with text are the scaled scores. *)
Lemma page_items_confidence unit p :
  map confidence (Spec.page_items unit true p) =
  map Spec.times_0_01 (page_scores (Cpp.iterator_level_from_unit unit) p).
Proof.
  assert (Hw : forall first w ws,
             map confidence (Spec.word_items true first w ws) =
             map Spec.times_0_01 (map w_conf (w :: ws))).
  { intros first w ws. revert first w.
    induction ws as [|w' ws IH]; intros first w.
    - reflexivity.
    - cbn [Spec.word_items map]. f_equal. apply IH. }
  destruct unit; cbn [Spec.page_items Cpp.iterator_level_from_unit page_scores].
  - induction (p_lines p) as [|l ls IH]; [reflexivity|].
    cbn [flat_map]. rewrite !map_app, IH, Hw. reflexivity.
  - rewrite !map_map. reflexivity.
Qed.
End Boxes.

(* ================================================================== *)
(** * The session: what one call does to the flags and the counters *)
(* ================================================================== *)

Section Session.
Import Cpp_types Backend Emscripten.
Variable B : Behaviour.
Variable lang : option string.


(** Recognition never leaves the layout flag down. *)
Lemma ocr_implies_layout_step c s :
  (Js.ocrDone s = true -> Js.layoutDone s = true) ->
  Js.ocrDone (Js.after B lang c s) = true -> Js.layoutDone (Js.after B lang c s) = true.
Proof.
  destruct s as [[ld od t] ml il pc]. destruct c; crush_call;
    intros; subst; auto; try discriminate.
Qed.

(** No query raises a budget. *)
Lemma budget_step c s :
  Js.changes_image c = false ->
  (Js.layout_budget (Js.after B lang c s) <= Js.layout_budget s)%nat /\
  (Js.recognition_budget (Js.after B lang c s) <= Js.recognition_budget s)%nat.
Proof.
  destruct s as [[ld od t] ml il pc]. destruct c; try discriminate; intros _;
    crush_call; subst; cbn; lia.
Qed.

(** Only a successful [loadImage] raises [_imageLoaded]. *)
Lemma imageLoaded_step c s :
  Js.imageLoaded (Js.after B lang c s) = true ->
  Js.imageLoaded s = true
  \/ Js.is_loadImage c && Js.succeeds B lang c s = true.
Proof.
  destruct s as [[ld od t] ml il pc]. destruct c; crush_call;
    intros; subst; auto; discriminate.
Qed.

(** Only a successful [loadModel] raises [_modelLoaded]. *)
Lemma modelLoaded_step c s :
  Js.modelLoaded (Js.after B lang c s) = true ->
  Js.modelLoaded s = true
  \/ Js.is_loadModel c && Js.succeeds B lang c s = true.
Proof.
  destruct s as [[ld od t] ml il pc]. destruct c; crush_call;
    intros; subst; auto; discriminate.
Qed.

Lemma flag_needs_success (flag : Js.OCREngine -> bool) kind :
  (forall c s, flag (Js.after B lang c s) = true ->
               flag s = true \/ kind c && Js.succeeds B lang c s = true) ->
  forall calls s,
    Js.none_succeeded B lang kind calls s = true ->
    flag s = false -> flag (Js.run B lang calls s) = false.
Proof.
  intros Hstep calls. induction calls as [|c calls IH]; intros s Hnone Hs.
  - exact Hs.
  - cbn [Js.run Js.none_succeeded] in *.
    apply andb_prop in Hnone as [Hc Hnone]. apply negb_true_iff in Hc.
    apply IH; [exact Hnone|].
    destruct (flag (Js.after B lang c s)) eqn:E; [|reflexivity].
    destruct (Hstep c s E) as [H|H]; congruence.
Qed.

(** The guards of the wrapper queries. *)
Lemma image_guard q s :
  Js.needs_image q = true -> Js.imageLoaded s = false ->
  Js.rejected B lang q s Js.NoImageError.
Proof.
  destruct s as [[ld od t] ml il pc]. cbn [Js.imageLoaded Js._imageLoaded].
  intros Hq ->. destruct q; try discriminate; split; reflexivity.
Qed.

Lemma model_guard q s :
  Js.needs_model q = true -> Js.modelLoaded s = false ->
  Js.rejected B lang q s
    (if Js.imageLoaded s then Js.NoModelError else Js.NoImageError).
Proof.
  destruct s as [[ld od t] ml il pc].
  cbn [Js.imageLoaded Js._imageLoaded Js.modelLoaded Js._modelLoaded].
  intros Hq ->. destruct q; try discriminate; destruct il; split; reflexivity.
Qed.

(** A query recomputes when its flag is down. *)
Lemma boxes_query_runs_layout q s :
  Js.layoutDone s = false -> Js.is_boxes_query q = true ->
  Js.succeeds B lang q s = true ->
  Js.layout_passes (Js.after B lang q s) = S (Js.layout_passes s).
Proof.
  destruct s as [[ld od t] ml il pc]. cbn [Js.layoutDone Js._engine
    Cpp.layout_analysis_done_]. intros -> Hq.
  destruct q; try discriminate; unfold Js.succeeds; crush_call;
    intros; try discriminate; reflexivity.
Qed.

Lemma text_query_runs_recognition q s :
  Js.ocrDone s = false -> Js.is_text_query q = true ->
  Js.succeeds B lang q s = true ->
  Js.recognition_passes (Js.after B lang q s) = S (Js.recognition_passes s).
Proof.
  destruct s as [[ld od t] ml il pc]. cbn [Js.ocrDone Js._engine
    Cpp.ocr_done_]. intros -> Hq.
  destruct q; try discriminate; unfold Js.succeeds; crush_call;
    intros; try discriminate; reflexivity.
Qed.

(** [jsArrayFromStdVector] copies the vector, and no element of the
    array is undefined. *)
Lemma jsArrayFromStdVector_map {T} (vec : list T) :
  Js.jsArrayFromStdVector vec = map (@Some T) vec.
Proof.
  unfold Js.jsArrayFromStdVector.
  assert (H : forall back front result,
             Js.jsArrayFromStdVector_loop (front ++ back)
               (List.length back) (List.length front) result
             = result ++ map (@Some T) back).
  { induction back as [|x back IH]; intros front result;
      cbn [Js.jsArrayFromStdVector_loop Datatypes.length map].
    - now rewrite app_nil_r.
    - rewrite nth_error_app2, Nat.sub_diag by lia. cbn [nth_error].
      replace (front ++ x :: back) with ((front ++ [x]) ++ back)
        by (rewrite <- app_assoc; reflexivity).
      replace (S (List.length front)) with (List.length (front ++ [x]))
        by (rewrite length_app; cbn; lia).
      rewrite IH, <- app_assoc. reflexivity. }
  apply (H vec [] []).
Qed.
End Session.

(* ================================================================== *)
(** * Properties of the engine *)
(* ================================================================== *)

Section Properties.
Import Cpp_types Backend Emscripten.

Lemma run_keeps_invariant B lang calls :
  forall s,
    (Js.ocrDone s = true -> Js.layoutDone s = true) ->
    Js.ocrDone (Js.run B lang calls s) = true ->
    Js.layoutDone (Js.run B lang calls s) = true.
Proof.
  induction calls as [|c calls IH]; intros s Hs; cbn [Js.run]; auto.
  apply IH. apply ocr_implies_layout_step. exact Hs.
Qed.

Lemma run_keeps_budget B lang calls :
  forall s,
    forallb (fun c => negb (Js.changes_image c)) calls = true ->
    (Js.layout_budget (Js.run B lang calls s) <= Js.layout_budget s)%nat /\
    (Js.recognition_budget (Js.run B lang calls s)
     <= Js.recognition_budget s)%nat.
Proof.
  induction calls as [|c calls IH]; intros s Hq; cbn [Js.run].
  - split; lia.
  - cbn [forallb] in Hq. apply andb_prop in Hq as [Hc Hq].
    apply negb_true_iff in Hc.
    destruct (budget_step B lang c s Hc) as [H1 H2].
    destruct (IH (Js.after B lang c s) Hq) as [H3 H4]. split; lia.
Qed.

Lemma told_app ev ev' : told (ev ++ ev') = told ev ++ told ev'.
Proof. unfold told. apply flat_map_app. Qed.

Lemma word_items_counts with_text first w ws :
  List.length (filter (Spec.has_flag StartOfLine)
                 (Spec.word_items with_text first w ws))
  = (if first then 1 else 0)%nat /\
  List.length (filter (Spec.has_flag EndOfLine)
                 (Spec.word_items with_text first w ws)) = 1%nat.
Proof.
  revert first w. induction ws as [|w' ws IH]; intros first w.
  - destruct first; split; reflexivity.
  - destruct (IH false w') as [H1 H2].
    cbn [Spec.word_items filter].
    destruct first; cbn; rewrite ?H1, ?H2; split; reflexivity.
Qed.

Lemma page_items_counts with_text p :
  List.length (filter (Spec.has_flag StartOfLine)
                 (Spec.page_items Word with_text p))
  = List.length (p_lines p) /\
  List.length (filter (Spec.has_flag EndOfLine)
                 (Spec.page_items Word with_text p))
  = List.length (p_lines p).
Proof.
  unfold Spec.page_items. induction (p_lines p) as [|l ls [IH1 IH2]].
  - split; reflexivity.
  - cbn [flat_map]. rewrite !filter_app, !length_app, IH1, IH2.
    destruct (word_items_counts with_text true (l_first l) (l_rest l))
      as [H1 H2].
    rewrite H1, H2. split; reflexivity.
Qed.

Lemma GetBoxes_without_iterator unit with_text e :
  GetIterator (Cpp.tesseract_ e) = None ->
  Cpp.GetBoxes unit with_text e = [].
Proof. unfold Cpp.GetBoxes. now intros ->. Qed.

(** C1, as the code has it. The wrapper queries [getBoundingBoxes],
    [getTextBoxes], [getText] and [getOrientation] are rejected with
    [NoImageError] while no [loadImage] has succeeded. [getTextBoxes]
    and [getText] are rejected while no [loadModel] has succeeded:
    with [NoModelError] when an image is loaded and with [NoImageError]
    otherwise, since the image is checked first. A rejected query
    leaves the session as it was. [getHOCR] is a method of the native
    engine only and has no guard: in every state it is rejected with
    neither error and goes on to recognition. *)
Theorem lifecycle_guard B lang progressChannel calls q cb :
  let start := Js.new_OCREngine progressChannel in
  let s := Js.run B lang calls start in
  (Js.needs_image q && Js.none_succeeded B lang Js.is_loadImage calls start
   = true -> Js.rejected B lang q s Js.NoImageError) /\
  (Js.needs_model q && Js.none_succeeded B lang Js.is_loadModel calls start
   = true ->
   Js.rejected B lang q s
     (if Js.imageLoaded s then Js.NoModelError else Js.NoImageError)) /\
  Js.outcome B lang (Js.Native_getHOCR cb) s <> Js.Throw Js.NoImageError /\
  Js.outcome B lang (Js.Native_getHOCR cb) s <> Js.Throw Js.NoModelError /\
  Js.ocrDone (Js.after B lang (Js.Native_getHOCR cb) s) = true.
Proof.
  intros start s. split; [|split; [|split; [|split]]].
  - intros H; apply andb_prop in H as [Hq Hn]. apply image_guard; auto.
    apply (flag_needs_success B lang Js.imageLoaded Js.is_loadImage);
      auto using imageLoaded_step.
  - intros H; apply andb_prop in H as [Hq Hn]. apply model_guard; auto.
    apply (flag_needs_success B lang Js.modelLoaded Js.is_loadModel);
      auto using modelLoaded_step.
  - generalize s. clear. intros [[ld od t] ml il pc].
    crush_call; discriminate.
  - generalize s. clear. intros [[ld od t] ml il pc].
    crush_call; discriminate.
  - generalize s. clear. intros [[ld od t] ml il pc].
    crush_call; flip_negb; reflexivity.
Qed.

(** An instance: after four images that [loadImage] does not take,
    and after an image alone. *)
Lemma lifecycle_guard_witness :
  (Js.needs_image (Js.Call_getText true)
   && Js.none_succeeded Fixture.demo Fixture.lang Js.is_loadImage
        Fixture.failed_loads Fixture.fresh = true /\
   Js.rejected Fixture.demo Fixture.lang (Js.Call_getText true)
     (Js.run Fixture.demo Fixture.lang Fixture.failed_loads Fixture.fresh)
     Js.NoImageError) /\
  (Js.needs_model (Js.Call_getText true)
   && Js.none_succeeded Fixture.demo Fixture.lang Js.is_loadModel
        [Js.Call_loadImage Fixture.page_image] Fixture.fresh = true /\
   Js.rejected Fixture.demo Fixture.lang (Js.Call_getText true)
     (Js.run Fixture.demo Fixture.lang [Js.Call_loadImage Fixture.page_image]
        Fixture.fresh)
     Js.NoModelError).
Proof.
  split; (split; [reflexivity|]).
  - pose proof (lifecycle_guard Fixture.demo Fixture.lang false
                  Fixture.failed_loads (Js.Call_getText true) None)
      as [H _].
    apply H. reflexivity.
  - pose proof (lifecycle_guard Fixture.demo Fixture.lang false
                  [Js.Call_loadImage Fixture.page_image]
                  (Js.Call_getText true) None)
      as (_ & H & _).
    apply H. reflexivity.
Defined.

(** C1 fails as stated. On a fresh engine, before any [loadImage] or
    [loadModel], [getHOCR] does not fail with [NoImageError]: it goes on
    to recognition. [getTextBoxes] fails there with [NoImageError], not
    with [NoModelError]. *)
Lemma hocr_before_loadImage_is_not_rejected :
  Js.outcome Fixture.demo Fixture.lang (Js.Native_getHOCR Fixture.handler)
    Fixture.fresh <> Js.Throw Js.NoImageError /\
  Js.recognition_passes
    (Js.after Fixture.demo Fixture.lang (Js.Native_getHOCR Fixture.handler)
       Fixture.fresh) = 1%nat /\
  Js.outcome Fixture.demo Fixture.lang (Js.Call_getTextBoxes "word" true)
    Fixture.fresh = Js.Throw Js.NoImageError /\
  Js.outcome Fixture.demo Fixture.lang (Js.Call_getTextBoxes "word" true)
    Fixture.fresh <> Js.Throw Js.NoModelError.
Proof.
  repeat split; try reflexivity; vm_compute; discriminate.
Defined.




(** C3. Between one [loadImage] or [clearImage] and the next, however
    many queries are made, the layout pass runs at most once and the
    recognition pass runs at most once. A second [boundingBoxes] gives
    the result of the first and runs no pass, and a [textBoxes] after
    [boundingBoxes] runs no layout pass. *)
Theorem passes_run_at_most_once B lang s calls unit unit' onProgress :
  forallb (fun c => negb (Js.changes_image c)) calls = true ->
  let s' := Js.run B lang calls s in
  let s1 := Js.after B lang (Js.Call_getBoundingBoxes unit) s' in
  (Js.layout_passes s' <= Js.layout_passes s + 1)%nat /\
  (Js.recognition_passes s' <= Js.recognition_passes s + 1)%nat /\
  Js.outcome B lang (Js.Call_getBoundingBoxes unit) s1
  = Js.outcome B lang (Js.Call_getBoundingBoxes unit) s' /\
  Js.layout_passes (Js.after B lang (Js.Call_getBoundingBoxes unit) s1)
  = Js.layout_passes s1 /\
  Js.layout_passes
    (Js.after B lang (Js.Call_getTextBoxes unit' onProgress) s1)
  = Js.layout_passes s1.
Proof.
  intros Hq s' s1.
  destruct (run_keeps_budget B lang calls s Hq) as [HL HR].
  fold s' in HL, HR. split; [|split; [|split; [|split]]].
  - unfold Js.layout_budget in HL.
    destruct (Js.layoutDone s'), (Js.layoutDone s); lia.
  - unfold Js.recognition_budget in HR.
    destruct (Js.ocrDone s'), (Js.ocrDone s); lia.
  - subst s1. generalize s'. clear. intros [[ld od t] ml il pc].
    js_unfold. cbn. destruct il; cbn; [|reflexivity].
    destruct (String.eqb unit "word"); cbn.
    + destruct ld; reflexivity.
    + destruct (String.eqb unit "line"); cbn; [|reflexivity].
      destruct ld; reflexivity.
  - subst s1. generalize s'. clear. intros [[ld od t] ml il pc].
    crush_call; try discriminate; reflexivity.
  - subst s1. generalize s'. clear. intros [[ld od t] ml il pc].
    crush_call; try discriminate; reflexivity.
Qed.

(** An instance: five queries on a session with a model and an image. *)
Lemma passes_run_at_most_once_witness :
  forallb (fun c => negb (Js.changes_image c)) Fixture.queries = true /\
  (Js.layout_passes
     (Js.run Fixture.demo Fixture.lang Fixture.queries
        (Fixture.ready Fixture.page_image))
   <= Js.layout_passes (Fixture.ready Fixture.page_image) + 1)%nat /\
  (Js.recognition_passes
     (Js.run Fixture.demo Fixture.lang Fixture.queries
        (Fixture.ready Fixture.page_image))
   <= Js.recognition_passes (Fixture.ready Fixture.page_image) + 1)%nat.
Proof.
  split; [reflexivity|].
  pose proof (passes_run_at_most_once Fixture.demo Fixture.lang
                (Fixture.ready Fixture.page_image) Fixture.queries
                "word" "word" true eq_refl) as H.
  split; apply H.
Defined.

(** C4. A [getTextBoxes], [getText] or [getHOCR] call that succeeds
    hands the progress callback what the backend reports while it
    recognises, and then 100: the last invocation is the forced one,
    whatever the backend reported. When the result is cached the
    backend reports nothing and the callback is invoked with 100 alone.
    With a handler given, the wrapper's callback tells it that 100. *)
Theorem progress_ends_with_100 B lang s c f :
  Js.callback_of c s = Some f ->
  Js.succeeds B lang c s = true ->
  Js.events B lang c s
  = (if Js.ocrDone s
     then []
     else fst (Recognize B (Cpp.progress_handler
                              {| Cpp.js_callback_ := Some f |})
                 (Cpp.tesseract_ (Js._engine s))))
    ++ f 100
  /\ told (Js.progress_arrow true s 100) = [100].
Proof.
  intros Hcb Hok. split.
  - destruct s as [[ld od t] ml il pc].
    destruct c; cbn [Js.callback_of] in Hcb; try discriminate Hcb;
      injection Hcb as <- || subst progress_callback;
      revert Hok; crush_call; intros; try discriminate;
      rewrite ?app_nil_r; reflexivity.
  - unfold Js.progress_arrow. destruct (Js._progressChannel s); reflexivity.
Qed.

(** An instance: a first recognition, where the backend reports 30 and
    70, and a cached one. *)
Lemma progress_ends_with_100_witness :
  (Js.callback_of (Js.Call_getTextBoxes "word" true)
     (Fixture.ready Fixture.line_image)
   = Some (Js.progress_arrow true (Fixture.ready Fixture.line_image)) /\
   Js.succeeds Fixture.demo Fixture.lang (Js.Call_getTextBoxes "word" true)
     (Fixture.ready Fixture.line_image) = true) /\
  told (Js.events Fixture.demo Fixture.lang (Js.Call_getTextBoxes "word" true)
          (Fixture.ready Fixture.line_image)) = [30; 70; 100] /\
  told (Js.events Fixture.demo Fixture.lang (Js.Call_getText true)
          Fixture.recognised) = [100].
Proof.
  split; [split; reflexivity|]. split.
  - pose proof (progress_ends_with_100 Fixture.demo Fixture.lang
                  (Fixture.ready Fixture.line_image)
                  (Js.Call_getTextBoxes "word" true) _ eq_refl eq_refl)
      as [H _].
    rewrite H. reflexivity.
  - pose proof (progress_ends_with_100 Fixture.demo Fixture.lang
                  Fixture.recognised (Js.Call_getText true) _
                  eq_refl eq_refl) as [H _].
    rewrite H. reflexivity.
Defined.

(** C5. Right after a [loadImage] that succeeded, and right after a
    [clearImage], [layoutDone] and [ocrDone] are both false, so the
    next boxes query runs the layout pass again and the next text query
    runs the recognition pass again. *)
Theorem image_change_resets_analysis B lang s c q :
  Js.image_changed B lang c s = true ->
  let s' := Js.after B lang c s in
  Js.layoutDone s' = false /\ Js.ocrDone s' = false /\
  (Js.is_boxes_query q && Js.succeeds B lang q s' = true ->
   Js.layout_passes (Js.after B lang q s') = S (Js.layout_passes s')) /\
  (Js.is_text_query q && Js.succeeds B lang q s' = true ->
   Js.recognition_passes (Js.after B lang q s')
   = S (Js.recognition_passes s')).
Proof.
  intros Hc s'.
  assert (Hflags : Js.layoutDone s' = false /\ Js.ocrDone s' = false).
  { subst s'. revert Hc. destruct s as [[ld od t] ml il pc].
    destruct c; try discriminate; crush_call; intros;
      try discriminate; split; reflexivity. }
  destruct Hflags as [HL HO]. split; [|split; [|split]]; auto.
  - intros H. apply andb_prop in H as [Hq Hok].
    now apply boxes_query_runs_layout.
  - intros H. apply andb_prop in H as [Hq Hok].
    now apply text_query_runs_recognition.
Qed.

(** An instance: a new image on a session with recognised text. *)
Lemma image_change_resets_analysis_witness :
  Js.ocrDone Fixture.recognised = true /\
  Js.image_changed Fixture.demo Fixture.lang
    (Js.Call_loadImage Fixture.page_image) Fixture.recognised = true /\
  Js.ocrDone
    (Js.after Fixture.demo Fixture.lang (Js.Call_loadImage Fixture.page_image)
       Fixture.recognised) = false /\
  Js.recognition_passes
    (Js.after Fixture.demo Fixture.lang (Js.Call_getText true)
       (Js.after Fixture.demo Fixture.lang
          (Js.Call_loadImage Fixture.page_image) Fixture.recognised))
  = S (Js.recognition_passes
         (Js.after Fixture.demo Fixture.lang
            (Js.Call_loadImage Fixture.page_image) Fixture.recognised)).
Proof.
  split; [reflexivity|]. split; [reflexivity|].
  pose proof (image_change_resets_analysis Fixture.demo Fixture.lang
                Fixture.recognised (Js.Call_loadImage Fixture.page_image)
                (Js.Call_getText true) eq_refl) as (_ & H2 & _ & H4).
  split; [exact H2 | apply H4; reflexivity].
Defined.

(** C6. [GetOrientation] follows the four steps of the rule: when the
    detector fails the result is rotation 0 with confidence 0;
    otherwise the confidence is 1 and the rotation is 0 or 180 when
    [|up_conf| - |left_conf| > 5.0] (0 when [up_conf > 0]), and 90 or
    270 when not (90 when [left_conf < 0]). The rows of the decision
    table follow. *)
Theorem orientation_follows_rule B this :
  Cpp.GetOrientation B this
  = (let '(had_error, up_conf, left_conf) :=
       pixOrientDetect B (GetThresholdedImage (Cpp.tesseract_ this))
         (Fp.float_of_int 0) (Fp.float_of_int 0) in
     Spec.orientation_rule (negb (had_error =? 0)) up_conf left_conf)
  /\ map (fun d => Cpp.GetOrientation d
                     (Js._engine (Fixture.with_image Fixture.page_image)))
       [Fixture.detector 0 (Fp.float_of_int 10) (Fp.float_of_int 0);
        Fixture.detector 0 (Fp.float_of_int (-10)) (Fp.float_of_int 0);
        Fixture.detector 0 (Fp.float_of_int 0) (Fp.float_of_int (-10));
        Fixture.detector 0 (Fp.float_of_int 0) (Fp.float_of_int 10);
        Fixture.detector 0 (Fp.float_of_int 1) (Fp.float_of_int 1);
        Fixture.detector 1 (Fp.float_of_int 10) (Fp.float_of_int 0)]
     = [ {| rotation := 0; orientation_confidence := Fp.f_1 |};
         {| rotation := 180; orientation_confidence := Fp.f_1 |};
         {| rotation := 90; orientation_confidence := Fp.f_1 |};
         {| rotation := 270; orientation_confidence := Fp.f_1 |};
         {| rotation := 270; orientation_confidence := Fp.f_1 |};
         {| rotation := 0; orientation_confidence := Fp.f_0 |} ].
Proof.
  split; [|vm_compute; reflexivity].
  unfold Cpp.GetOrientation, Spec.orientation_rule.
  destruct (pixOrientDetect B _ _ _) as [[had_error up_conf] left_conf].
  destruct (had_error =? 0); reflexivity.
Qed.

(** C7. At line granularity every item of [GetBoundingBoxes] and of
    [GetTextBoxes] has flags 0. At word granularity the flags of the
    items are, line after line, those of the positions in the line:
    [StartOfLine] exactly on the first word and [EndOfLine] exactly on
    the last, both on the only word of a one-word line. So the items
    flagged [StartOfLine] are as many as the lines, and so are those
    flagged [EndOfLine]: one of each for a single line of two words. *)
Theorem layout_flags_by_position B this cb with_text box score txt w1 w2 :
  Forall (fun tr => flags tr = 0) (fst (Cpp.GetBoundingBoxes B Line this)) /\
  Forall (fun tr => flags tr = 0)
    (fst (fst (Cpp.GetTextBoxes B Line cb this))) /\
  map flags (fst (Cpp.GetBoundingBoxes B Word this))
  = match page_res_ (Cpp.tesseract_ (snd (Cpp.GetBoundingBoxes B Word this)))
    with
    | None => []
    | Some p => flat_map Spec.line_flags (p_lines p)
    end /\
  map flags (fst (fst (Cpp.GetTextBoxes B Word cb this)))
  = match page_res_ (Cpp.tesseract_ (snd (Cpp.GetTextBoxes B Word cb this)))
    with
    | None => []
    | Some p => flat_map Spec.line_flags (p_lines p)
    end /\
  List.length (filter (Spec.has_flag StartOfLine)
                 (Cpp.GetBoxes Word with_text this))
  = match page_res_ (Cpp.tesseract_ this) with
    | None => 0%nat
    | Some p => List.length (p_lines p)
    end /\
  List.length (filter (Spec.has_flag EndOfLine)
                 (Cpp.GetBoxes Word with_text this))
  = match page_res_ (Cpp.tesseract_ this) with
    | None => 0%nat
    | Some p => List.length (p_lines p)
    end /\
  Spec.line_flags {| l_box := box; l_conf := score; l_text := txt;
                     l_first := w1; l_rest := [w2] |}
  = [StartOfLine; EndOfLine] /\
  Spec.line_flags {| l_box := box; l_conf := score; l_text := txt;
                     l_first := w1; l_rest := [] |}
  = [Z.lor StartOfLine EndOfLine] /\
  map flags
    (fst (Cpp.GetBoundingBoxes Fixture.demo Word
            (Js._engine (Fixture.with_image Fixture.line_image))))
  = [StartOfLine; EndOfLine].
Proof.
  assert (HL : forall wt e, Forall (fun tr => flags tr = 0)
                              (Cpp.GetBoxes Line wt e)).
  { intros wt e. rewrite GetBoxes_page.
    destruct (page_res_ (Cpp.tesseract_ e)); [|constructor].
    apply page_items_line_flags. }
  assert (HW : forall wt e,
             map flags (Cpp.GetBoxes Word wt e)
             = match page_res_ (Cpp.tesseract_ e) with
               | None => []
               | Some p => flat_map Spec.line_flags (p_lines p)
               end).
  { intros wt e. rewrite GetBoxes_page.
    destruct (page_res_ (Cpp.tesseract_ e)); [|reflexivity].
    apply page_items_word_flags. }
  split; [apply HL|]. split.
  { unfold Cpp.GetTextBoxes. destruct (Cpp.DoOCR B cb this). apply HL. }
  split; [apply HW|]. split.
  { unfold Cpp.GetTextBoxes. destruct (Cpp.DoOCR B cb this). apply HW. }
  rewrite GetBoxes_page.
  split; [|split; [|split; [|split; [|reflexivity]]]]; try reflexivity.
  - destruct (page_res_ (Cpp.tesseract_ this)); [|reflexivity].
    apply page_items_counts.
  - destruct (page_res_ (Cpp.tesseract_ this)); [|reflexivity].
    apply page_items_counts.
Qed.

(** C8. Every item that [GetTextBoxes] returns has as confidence the
    raw score of its region multiplied by 0.01; when the raw scores of
    the page are percentages, between 0 and 100, every confidence lies
    between 0 and 1. *)
Theorem text_confidence_in_unit_interval B unit cb this :
  map confidence (fst (fst (Cpp.GetTextBoxes B unit cb this)))
  = map Spec.times_0_01
      match page_res_ (Cpp.tesseract_ (snd (Cpp.GetTextBoxes B unit cb this)))
      with
      | None => []
      | Some p => page_scores (Cpp.iterator_level_from_unit unit) p
      end /\
  (Forall percentage
     match page_res_ (Cpp.tesseract_ (snd (Cpp.GetTextBoxes B unit cb this)))
     with
     | None => []
     | Some p => page_scores (Cpp.iterator_level_from_unit unit) p
     end ->
   Forall (fun tr => Spec.unit_interval (confidence tr))
     (fst (fst (Cpp.GetTextBoxes B unit cb this)))).
Proof.
  unfold Cpp.GetTextBoxes. destruct (Cpp.DoOCR B cb this) as [events e].
  cbn [fst snd]. rewrite GetBoxes_page.
  assert (Heq : map confidence
                  match page_res_ (Cpp.tesseract_ e) with
                  | None => []
                  | Some p => Spec.page_items unit true p
                  end
                = map Spec.times_0_01
                    match page_res_ (Cpp.tesseract_ e) with
                    | None => []
                    | Some p =>
                        page_scores (Cpp.iterator_level_from_unit unit) p
                    end).
  { destruct (page_res_ (Cpp.tesseract_ e)); [|reflexivity].
    apply page_items_confidence. }
  split; [exact Heq|]. intros Hp.
  apply Forall_forall. intros tr Hin.
  apply (in_map confidence) in Hin. rewrite Heq in Hin.
  apply in_map_iff in Hin as (raw & <- & Hraw).
  apply times_0_01_bounds.
  eapply Forall_forall in Hp; eauto.
Qed.

(** An instance: the words of the two-line page. *)
Lemma text_confidence_in_unit_interval_witness :
  Forall percentage (page_scores RIL_WORD Fixture.two_lines) /\
  Forall (fun tr => Spec.unit_interval (confidence tr))
    (fst (fst (Cpp.GetTextBoxes Fixture.demo Word Fixture.handler
                 (Js._engine (Fixture.ready Fixture.page_image))))).
Proof.
  assert (H : Forall percentage (page_scores RIL_WORD Fixture.two_lines)).
  { repeat constructor. }
  split; [exact H|].
  apply (text_confidence_in_unit_interval Fixture.demo Word Fixture.handler
           (Js._engine (Fixture.ready Fixture.page_image))).
  exact H.
Defined.

(** C9. In every state that a sequence of calls reaches from a fresh
    engine, [ocrDone] implies [layoutDone]: recognition raises both
    flags, and replacing or clearing the image lowers both. *)
Theorem ocr_done_implies_layout_done B lang progressChannel calls :
  let s := Js.run B lang calls (Js.new_OCREngine progressChannel) in
  implb (Js.ocrDone s) (Js.layoutDone s) = true.
Proof.
  intros s.
  destruct (Js.ocrDone s) eqn:E; [|reflexivity]. cbn [implb].
  apply (run_keeps_invariant B lang calls); [discriminate | exact E].
Qed.

(** C10. When the backend has no result iterator for the current image,
    a boxes request whose preconditions are met returns the empty list:
    [getBoundingBoxes] and [getTextBoxes] return an empty array, and
    the native methods an empty vector. *)
Theorem no_iterator_gives_no_boxes B lang s c :
  Js.boxes_request c s = true ->
  GetIterator (Cpp.tesseract_ (Js._engine (Js.after B lang c s))) = None ->
  Js.outcome B lang c s = Js.Return (Js.V_array [])
  \/ Js.outcome B lang c s = Js.Return (Js.V_vector []).
Proof.
  destruct s as [[ld od t] ml il pc].
  destruct c; cbn [Js.boxes_request]; try discriminate;
    unfold Js.imageLoaded, Js.modelLoaded, Js.valid_unit;
    cbn [Js._imageLoaded Js._modelLoaded]; intros Hreq.
  - apply andb_prop in Hreq as [-> Hu].
    js_unfold. unfold Cpp.GetBoundingBoxes.
    destruct (String.eqb unit "word") eqn:Ew;
      [|destruct (String.eqb unit "line") eqn:El; [|discriminate Hu]];
      cbn -[Cpp.GetBoxes]; intros Hit;
      rewrite (GetBoxes_without_iterator _ _ _ Hit); left; reflexivity.
  - apply andb_prop in Hreq as [Hreq Hu].
    apply andb_prop in Hreq as [-> ->].
    js_unfold. unfold Cpp.GetTextBoxes.
    destruct (String.eqb unit "word") eqn:Ew;
      [|destruct (String.eqb unit "line") eqn:El; [|discriminate Hu]];
      cbn -[Cpp.GetBoxes Cpp.DoOCR];
      destruct (Cpp.DoOCR _ _ _) as [ev e]; cbn -[Cpp.GetBoxes];
      intros Hit; rewrite (GetBoxes_without_iterator _ _ _ Hit);
      left; reflexivity.
  - js_unfold. unfold Cpp.GetBoundingBoxes. cbn -[Cpp.GetBoxes].
    intros Hit. right.
    rewrite (GetBoxes_without_iterator _ _ _ Hit); reflexivity.
  - js_unfold. unfold Cpp.GetTextBoxes. cbn -[Cpp.GetBoxes Cpp.DoOCR].
    destruct (Cpp.DoOCR _ _ _) as [ev e]; cbn -[Cpp.GetBoxes].
    intros Hit. right.
    rewrite (GetBoxes_without_iterator _ _ _ Hit); reflexivity.
Qed.

(** An instance: the blank page. *)
Lemma no_iterator_gives_no_boxes_witness :
  (Js.boxes_request (Js.Call_getTextBoxes "word" true)
     (Fixture.ready Fixture.blank_image) = true /\
   GetIterator
     (Cpp.tesseract_
        (Js._engine
           (Js.after Fixture.demo Fixture.lang
              (Js.Call_getTextBoxes "word" true)
              (Fixture.ready Fixture.blank_image)))) = None) /\
  Js.outcome Fixture.demo Fixture.lang (Js.Call_getTextBoxes "word" true)
    (Fixture.ready Fixture.blank_image) = Js.Return (Js.V_array []).
Proof.
  split; [split; reflexivity|].
  destruct (no_iterator_gives_no_boxes Fixture.demo Fixture.lang
              (Fixture.ready Fixture.blank_image)
              (Js.Call_getTextBoxes "word" true) eq_refl eq_refl)
    as [H|H]; [exact H | discriminate H].
Defined.
End Properties.

(* ================================================================== *)
(** * Further properties: loads, guards, forwarding, boxes, orientation *)
(* ================================================================== *)

Section Sessions.
Import Cpp_types Backend Emscripten.

(** ** Helper lemmas *)

Lemma posted_app ev ev' :
  Contract.posted (ev ++ ev') = Contract.posted ev ++ Contract.posted ev'.
Proof. unfold Contract.posted. apply flat_map_app. Qed.

(** What the caller's handler and the channel get of the events of the
    wrapper's arrow function. *)
Lemma arrow_events onProgress s ps :
  told (flat_map (Js.progress_arrow onProgress s) ps)
  = (if onProgress then ps else []) /\
  Contract.posted (flat_map (Js.progress_arrow onProgress s) ps)
  = (if Js._progressChannel s then ps else []).
Proof.
  induction ps as [|p ps [IHt IHp]].
  - destruct onProgress, (Js._progressChannel s); split; reflexivity.
  - cbn [flat_map]. rewrite told_app, posted_app, IHt, IHp.
    unfold Js.progress_arrow.
    destruct onProgress, (Js._progressChannel s); split; reflexivity.
Qed.

Lemma flat_map_snoc {A C} (f : A -> list C) l x :
  flat_map f (l ++ [x]) = flat_map f l ++ f x.
Proof. rewrite flat_map_app. cbn. now rewrite app_nil_r. Qed.

(** One call never lowers a load flag or a pass counter, and never
    touches the channel. *)
Lemma monotone_step B lang c s :
  implb (Js.imageLoaded s) (Js.imageLoaded (Js.after B lang c s)) = true /\
  implb (Js.modelLoaded s) (Js.modelLoaded (Js.after B lang c s)) = true /\
  (Js.layout_passes s <= Js.layout_passes (Js.after B lang c s))%nat /\
  (Js.recognition_passes s
   <= Js.recognition_passes (Js.after B lang c s))%nat /\
  Js._progressChannel (Js.after B lang c s) = Js._progressChannel s.
Proof.
  destruct s as [[ld od t] ml il pc]. destruct c; crush_call;
    subst; cbn; repeat split; try lia;
    try (destruct il; reflexivity); try (destruct ml; reflexivity).
Qed.

(** With the text recognised, no call runs the recognition pass. *)
Lemma recognised_step B lang q s :
  Js.ocrDone s = true ->
  Js.recognition_passes (Js.after B lang q s) = Js.recognition_passes s.
Proof.
  destruct s as [[ld od t] ml il pc].
  cbn [Js.ocrDone Js._engine Cpp.ocr_done_]. intros ->.
  destruct q; crush_call; reflexivity.
Qed.

(** A wrapper call keeps the analysis flags behind the load flags. *)
Lemma loaded_before_analysed_step B lang c s :
  Contract.is_wrapper_call c = true ->
  Contract.loaded_before_analysed s = true ->
  Contract.loaded_before_analysed (Js.after B lang c s) = true.
Proof.
  unfold Contract.loaded_before_analysed.
  destruct s as [[ld od t] ml il pc].
  destruct c; try discriminate; intros _;
    crush_call; subst; cbn; try reflexivity; try assumption;
    destruct ld, od, ml, il; cbn in *; try reflexivity; try discriminate.
Qed.



(** ** The loads *)


(** An instance: a model and an image that the backend rejects. Both
    loads return and raise their flags, so [getText] passes the guards
    and returns the text of an engine without an image. *)
Lemma loads_that_the_backend_rejects_return :
  Js.outcome Fixture.demo Fixture.lang
    (Js.Call_loadModel Fixture.empty_model) Fixture.fresh
  = Js.Return Js.V_undefined /\
  Js.outcome Fixture.demo Fixture.lang
    (Js.Call_loadImage Fixture.corrupt_image) Fixture.fresh
  = Js.Return Js.V_undefined /\
  Js.outcome Fixture.demo Fixture.lang (Js.Call_getText true)
    (Js.run Fixture.demo Fixture.lang
       [Js.Call_loadModel Fixture.empty_model;
        Js.Call_loadImage Fixture.corrupt_image; Js.Native_clearImage]
       Fixture.fresh)
  = Js.Return (Js.V_string EmptyString).
Proof. repeat split. Qed.

(** ** The guards of the wrapper queries *)

(** X2. A wrapper query checks, in this order, that an image is loaded,
    that a model is loaded (for [getTextBoxes] and [getText]) and that
    the unit is "word" or "line" (for the two boxes queries). The first
    check that fails rejects the call with its message and leaves the
    session as it was; when none fails the call returns. *)
Theorem wrapper_query_guards B lang q s :
  Js.needs_image q = true ->
  if negb (Js.imageLoaded s)
  then Js.rejected B lang q s Js.NoImageError
  else if Js.needs_model q && negb (Js.modelLoaded s)
  then Js.rejected B lang q s Js.NoModelError
  else if negb (Contract.unit_accepted q)
  then Js.rejected B lang q s Js.InvalidUnitError
  else Js.succeeds B lang q s = true.
Proof.
  destruct s as [[ld od t] ml il pc].
  destruct q; try discriminate; intros _;
    unfold Contract.unit_accepted, Js.valid_unit;
    cbn [Js.imageLoaded Js._imageLoaded Js.modelLoaded Js._modelLoaded
         Js.needs_model];
    destruct il; cbn [negb andb]; try (split; reflexivity);
    try (destruct ml; cbn [negb andb]; try (split; reflexivity));
    try (destruct (String.eqb unit "word") eqn:Ew;
         [|destruct (String.eqb unit "line") eqn:El]);
    cbn [negb orb];
    js_unfold; rewrite ?Ew, ?El; cbn;
    try reflexivity; try (split; reflexivity);
    name_native_results; reflexivity.
Qed.

(** An instance: the unit is compared as written, so "Word" is not a
    unit. *)
Lemma wrapper_query_guards_witness :
  Js.needs_image (Js.Call_getTextBoxes "Word" true) = true /\
  Js.rejected Fixture.demo Fixture.lang (Js.Call_getTextBoxes "Word" true)
    (Fixture.ready Fixture.page_image) Js.InvalidUnitError.
Proof.
  split; [reflexivity|].
  exact (wrapper_query_guards Fixture.demo Fixture.lang
           (Js.Call_getTextBoxes "Word" true)
           (Fixture.ready Fixture.page_image) eq_refl).
Defined.



(** ** Sequences of calls *)

(** X4. No call ever lowers [_imageLoaded] or [_modelLoaded]: not a
    load that fails, and not [clearImage], after which the wrapper
    still takes an image to be loaded. The two pass counters never go
    down, and the progress channel given to the constructor stays. *)
Theorem loaded_flags_are_monotone B lang calls s :
  implb (Js.imageLoaded s) (Js.imageLoaded (Js.run B lang calls s)) = true /\
  implb (Js.modelLoaded s) (Js.modelLoaded (Js.run B lang calls s)) = true /\
  (Js.layout_passes s <= Js.layout_passes (Js.run B lang calls s))%nat /\
  (Js.recognition_passes s
   <= Js.recognition_passes (Js.run B lang calls s))%nat /\
  Js._progressChannel (Js.run B lang calls s) = Js._progressChannel s.
Proof.
  revert s. induction calls as [|c calls IH]; intros s; cbn [Js.run].
  - rewrite !implb_same. repeat split; lia.
  - destruct (monotone_step B lang c s) as (H1 & H2 & H3 & H4 & H5).
    destruct (IH (Js.after B lang c s)) as (I1 & I2 & I3 & I4 & I5).
    repeat split; try lia; try congruence.
    + destruct (Js.imageLoaded s); [|reflexivity].
      cbn in H1. rewrite H1 in I1. exact I1.
    + destruct (Js.modelLoaded s); [|reflexivity].
      cbn in H2. rewrite H2 in I2. exact I2.
Qed.

(** X5. Loading a model, reading or setting a variable and detecting
    the orientation leave the two analysis flags and the two pass
    counters as they are. So after recognition a text query that
    follows such a call, a new model included, runs no recognition
    pass: it answers from the results of the old one. *)
Theorem settings_keep_cached_analysis B lang c q s :
  Contract.outside_analysis c = true ->
  Js.layoutDone (Js.after B lang c s) = Js.layoutDone s /\
  Js.ocrDone (Js.after B lang c s) = Js.ocrDone s /\
  Js.layout_passes (Js.after B lang c s) = Js.layout_passes s /\
  Js.recognition_passes (Js.after B lang c s) = Js.recognition_passes s /\
  (Js.ocrDone s = true ->
   Js.recognition_passes (Js.after B lang q (Js.after B lang c s))
   = Js.recognition_passes s).
Proof.
  intros Hc.
  assert (H : Js.layoutDone (Js.after B lang c s) = Js.layoutDone s /\
              Js.ocrDone (Js.after B lang c s) = Js.ocrDone s /\
              Js.layout_passes (Js.after B lang c s) = Js.layout_passes s /\
              Js.recognition_passes (Js.after B lang c s)
              = Js.recognition_passes s).
  { destruct s as [[ld od t] ml il pc].
    destruct c; try discriminate Hc; crush_call; repeat split. }
  destruct H as (H1 & H2 & H3 & H4).
  repeat split; try assumption.
  intros Hod. rewrite recognised_step by congruence. exact H4.
Qed.

(** An instance: a second model after recognition, then [getText]. *)
Lemma settings_keep_cached_analysis_witness :
  Contract.outside_analysis (Js.Call_loadModel [Byte.x01]) = true /\
  Js.recognition_passes
    (Js.run Fixture.demo Fixture.lang
       [Js.Call_loadModel [Byte.x01]; Js.Call_getText true]
       Fixture.recognised)
  = Js.recognition_passes Fixture.recognised.
Proof.
  split; [reflexivity|].
  pose proof (settings_keep_cached_analysis Fixture.demo Fixture.lang
                (Js.Call_loadModel [Byte.x01]) (Js.Call_getText true)
                Fixture.recognised eq_refl) as (_ & _ & _ & _ & H).
  apply H. reflexivity.
Defined.

(** X6. In a session that uses the methods of the wrapper class only,
    from the constructor on, the layout is analysed only when an image
    has been loaded, and text is recognised only when an image and a
    model have been loaded. *)
Theorem wrapper_sessions_analyse_after_loading B lang progressChannel calls :
  forallb Contract.is_wrapper_call calls = true ->
  Contract.loaded_before_analysed
    (Js.run B lang calls (Js.new_OCREngine progressChannel)) = true.
Proof.
  assert (H : forall s,
             forallb Contract.is_wrapper_call calls = true ->
             Contract.loaded_before_analysed s = true ->
             Contract.loaded_before_analysed (Js.run B lang calls s) = true).
  { induction calls as [|c calls IH]; intros s Hw Hs; cbn [Js.run].
    - exact Hs.
    - cbn [forallb] in Hw. apply andb_prop in Hw as [Hc Hw].
      apply IH; [exact Hw|].
      apply loaded_before_analysed_step; assumption. }
  intros Hw. apply H; [exact Hw | reflexivity].
Qed.

(** An instance: queries before and after the loads. *)
Lemma wrapper_sessions_analyse_after_loading_witness :
  Contract.loaded_before_analysed
    (Js.run Fixture.demo Fixture.lang
       [Js.Call_getText true; Js.Call_loadImage Fixture.page_image;
        Js.Call_getBoundingBoxes "line"; Js.Call_getText true;
        Js.Call_loadModel Fixture.model; Js.Call_getText false;
        Js.Call_loadImage Fixture.corrupt_image]
       (Js.new_OCREngine true)) = true.
Proof.
  apply (wrapper_sessions_analyse_after_loading Fixture.demo Fixture.lang
           true). reflexivity.
Defined.

(** X7. The account of the two passes, call by call: the layout pass
    runs in a boxes query that returns while [layoutDone] is false, the
    recognition pass runs in a text query that returns while [ocrDone]
    is false, each of them once, and no pass runs anywhere else. A text
    query never runs the layout pass and a boxes query never runs the
    recognition pass. *)
Theorem passes_belong_to_their_queries B lang c s :
  Js.layout_passes (Js.after B lang c s)
  = (Js.layout_passes s
     + if Js.is_boxes_query c && Js.succeeds B lang c s
          && negb (Js.layoutDone s)
       then 1 else 0)%nat /\
  Js.recognition_passes (Js.after B lang c s)
  = (Js.recognition_passes s
     + if Js.is_text_query c && Js.succeeds B lang c s
          && negb (Js.ocrDone s)
       then 1 else 0)%nat.
Proof.
  destruct s as [[ld od t] ml il pc].
  destruct c; crush_call; subst; flip_negb; cbn; split; lia.
Qed.

(** X8. The two analysis flags, call by call, for a call that does
    not replace or clear the image: a text query that returns raises
    [ocrDone], and with it [layoutDone] when it had to recognise; a
    boxes query that returns raises [layoutDone]; nothing else changes
    a flag, and no such call lowers one. *)
Theorem queries_only_raise_flags B lang c s :
  Js.changes_image c = false ->
  Js.layoutDone (Js.after B lang c s)
  = Js.layoutDone s
    || Js.succeeds B lang c s
       && (Js.is_boxes_query c
           || Js.is_text_query c && negb (Js.ocrDone s)) /\
  Js.ocrDone (Js.after B lang c s)
  = Js.ocrDone s || Js.succeeds B lang c s && Js.is_text_query c.
Proof.
  destruct s as [[ld od t] ml il pc].
  destruct c; try discriminate; intros _;
    crush_call; subst; flip_negb; cbn;
    rewrite ?orb_true_r, ?orb_false_r; split; reflexivity.
Qed.

(** An instance: [getText] without a model, which throws, and with
    one. *)
Lemma queries_only_raise_flags_witness :
  Js.changes_image (Js.Call_getText true) = false /\
  Js.ocrDone
    (Js.after Fixture.demo Fixture.lang (Js.Call_getText true)
       (Fixture.with_image Fixture.page_image)) = false /\
  Js.ocrDone
    (Js.after Fixture.demo Fixture.lang (Js.Call_getText true)
       (Fixture.ready Fixture.page_image)) = true.
Proof.
  split; [reflexivity|]. split.
  - pose proof (queries_only_raise_flags Fixture.demo Fixture.lang
                  (Js.Call_getText true)
                  (Fixture.with_image Fixture.page_image) eq_refl)
      as [_ H].
    exact H.
  - reflexivity.
Defined.

(** ** What the wrapper adds to the native methods *)

(** X9. [jsArrayFromStdVector] returns the elements of the vector in
    order: the array is as long as the vector, its element at every
    index is the vector's, and none is [undefined]. *)
Theorem jsArrayFromStdVector_copies {T} (vec : list T) :
  Js.jsArrayFromStdVector vec = map (@Some T) vec /\
  List.length (Js.jsArrayFromStdVector vec) = List.length vec /\
  (forall i, nth_error (Js.jsArrayFromStdVector vec) i
             = option_map (@Some T) (nth_error vec i)) /\
  ~ In None (Js.jsArrayFromStdVector vec).
Proof.
  rewrite jsArrayFromStdVector_map.
  split; [reflexivity|]. split; [apply length_map|].
  split; [intros i; apply nth_error_map|].
  intros Hin. apply in_map_iff in Hin as (x & Hx & _). discriminate Hx.
Qed.

(** X10. A wrapper query that returns has done what the native method
    it calls does, with the enumerator of its unit and the arrow
    function as callback: the session afterwards and the progress
    events are the same, and the result is the native one, a vector
    being copied into an array. Beyond its guards the wrapper adds
    nothing. *)
Theorem wrapper_queries_forward B lang q s :
  Js.needs_image q = true ->
  Js.succeeds B lang q s = true ->
  match Contract.forwards_to q s with
  | Some native =>
      Js.outcome B lang q s = Contract.as_js (Js.outcome B lang native s) /\
      Js.after B lang q s = Js.after B lang native s /\
      Js.events B lang q s = Js.events B lang native s
  | None => False
  end.
Proof.
  destruct s as [[ld od t] ml il pc].
  destruct q; try discriminate; intros _;
    unfold Contract.forwards_to, Contract.text_unit, Contract.as_js;
    js_unfold; cbn.
  - destruct il; cbn; [|discriminate].
    destruct (String.eqb unit "word");
      [|destruct (String.eqb unit "line")]; cbn; try discriminate;
      name_native_results; cbn; intros _;
      rewrite ?app_nil_r; repeat split.
  - destruct il; cbn; [|discriminate].
    destruct ml; cbn; [|discriminate].
    destruct (String.eqb unit "word");
      [|destruct (String.eqb unit "line")]; cbn; try discriminate;
      name_native_results; cbn; intros _;
      rewrite ?app_nil_r; repeat split.
  - destruct il; cbn; [|discriminate].
    destruct ml; cbn; [|discriminate].
    name_native_results; cbn; intros _;
      rewrite ?app_nil_r; repeat split.
  - destruct il; cbn; [|discriminate]. intros _. repeat split.
Qed.

(** An instance: the words of the two-line page. *)
Lemma wrapper_queries_forward_witness :
  (Js.needs_image (Js.Call_getBoundingBoxes "word") = true /\
   Js.succeeds Fixture.demo Fixture.lang (Js.Call_getBoundingBoxes "word")
     (Fixture.with_image Fixture.page_image) = true) /\
  Js.after Fixture.demo Fixture.lang (Js.Call_getBoundingBoxes "word")
    (Fixture.with_image Fixture.page_image)
  = Js.after Fixture.demo Fixture.lang (Js.Native_getBoundingBoxes Word)
      (Fixture.with_image Fixture.page_image).
Proof.
  split; [split; reflexivity|].
  pose proof (wrapper_queries_forward Fixture.demo Fixture.lang
                (Js.Call_getBoundingBoxes "word")
                (Fixture.with_image Fixture.page_image) eq_refl eq_refl)
    as H.
  cbn [Contract.forwards_to Contract.text_unit String.eqb Ascii.eqb
       Bool.eqb option_map] in H.
  destruct H as (_ & H & _). exact H.
Defined.

(** ** Progress *)

(** X11. A text query of the wrapper reports one list of percentages,
    which ends with 100: each percentage is told to the caller's
    handler, when there is one, and then posted on the progress
    channel, when there is one. So the handler and the channel get the
    same percentages in the same order, and with neither of them the
    call causes no event. *)
Theorem handler_and_channel_hear_the_same B lang c s onProgress :
  Js.callback_of c s = Some (Js.progress_arrow onProgress s) ->
  Js.succeeds B lang c s = true ->
  exists percentages,
    last percentages 0 = 100 /\
    Js.events B lang c s
    = flat_map (Js.progress_arrow onProgress s) percentages /\
    told (Js.events B lang c s)
    = (if onProgress then percentages else []) /\
    Contract.posted (Js.events B lang c s)
    = (if Js._progressChannel s then percentages else []).
Proof.
  intros Hcb Hok.
  assert (H : exists percentages,
             last percentages 0 = 100 /\
             Js.events B lang c s
             = flat_map (Js.progress_arrow onProgress s) percentages).
  { destruct s as [[ld od t] ml il pc].
    destruct c; try discriminate Hcb; cbn [Js.callback_of] in Hcb;
      try (match type of Hcb with ?v = _ => is_var v; subst v end);
      try (injection Hcb as Hcb);
      revert Hok; crush_call; intros Hok; try discriminate Hok;
      try rewrite Hcb;
      rewrite ?app_nil_r;
      match goal with
      | |- exists ps, _ /\ flat_map ?f ?l ++ ?x = _ =>
          exists (l ++ [100]); split;
          [apply last_last
          |rewrite flat_map_snoc; f_equal; apply flat_map_ext;
           intros; reflexivity]
      | |- exists ps, _ /\ ?x = _ =>
          exists [100]; split;
          [reflexivity | cbn [flat_map]; symmetry; apply app_nil_r]
      end. }
  destruct H as (ps & Hlast & Hev). exists ps.
  rewrite Hev. destruct (arrow_events onProgress s ps) as [Ht Hp].
  repeat split; assumption.
Qed.

(** An instance: a first recognition with a handler and no channel. *)
Lemma handler_and_channel_hear_the_same_witness :
  exists percentages,
    last percentages 0 = 100 /\
    Js.events Fixture.demo Fixture.lang (Js.Call_getText true)
      (Fixture.ready Fixture.line_image)
    = flat_map (Js.progress_arrow true (Fixture.ready Fixture.line_image))
        percentages /\
    told (Js.events Fixture.demo Fixture.lang (Js.Call_getText true)
            (Fixture.ready Fixture.line_image)) = percentages /\
    Contract.posted
      (Js.events Fixture.demo Fixture.lang (Js.Call_getText true)
         (Fixture.ready Fixture.line_image)) = [].
Proof.
  exact (handler_and_channel_hear_the_same Fixture.demo Fixture.lang
           (Js.Call_getText true) (Fixture.ready Fixture.line_image)
           true eq_refl eq_refl).
Defined.
End Sessions.

Section Results.
Import Cpp_types Backend Emscripten.

(** ** Helper lemmas *)

(** The loop of [GetBoxes] adds at least the item of the position it
    starts at. *)
Lemma GetBoxes_loop_grows unit with_text level it boxes :
  (List.length boxes
   < List.length (Cpp.GetBoxes_loop unit with_text level it boxes))%nat.
Proof.
  funelim (Cpp.GetBoxes_loop unit with_text level it boxes).
  - rewrite length_app in H. cbn in H. lia.
  - rewrite length_app. cbn. lia.
Qed.

Lemma word_items_regions with_text first w ws :
  map rect (Spec.word_items with_text first w ws) = map w_box (w :: ws) /\
  map text (Spec.word_items true first w ws) = map w_text (w :: ws) /\
  map flags (Spec.word_items with_text first w ws)
  = map flags (Spec.word_items false first w ws) /\
  Forall Contract.without_text (Spec.word_items false first w ws).
Proof.
  revert first w. induction ws as [|w' ws IH]; intros first w.
  - repeat split. constructor; [split; reflexivity|constructor].
  - destruct (IH false w') as (H1 & H2 & H3 & H4).
    cbn [Spec.word_items map]. rewrite H1, H2, H3.
    repeat split. constructor; [split; reflexivity|exact H4].
Qed.

Lemma page_items_regions unit with_text p :
  map rect (Spec.page_items unit with_text p) = Contract.region_boxes unit p /\
  map text (Spec.page_items unit true p) = Contract.region_texts unit p /\
  map flags (Spec.page_items unit with_text p)
  = map flags (Spec.page_items unit false p) /\
  Forall Contract.without_text (Spec.page_items unit false p).
Proof.
  destruct unit; cbn [Spec.page_items Contract.region_boxes
                       Contract.region_texts].
  - induction (p_lines p) as [|l ls (H1 & H2 & H3 & H4)].
    + repeat split. constructor.
    + cbn [flat_map]. rewrite !map_app, H1, H2, H3.
      destruct (word_items_regions with_text true (l_first l) (l_rest l))
        as (W1 & _ & W3 & _).
      destruct (word_items_regions true true (l_first l) (l_rest l))
        as (_ & W2 & _ & W4).
      rewrite W1, W2, W3. repeat split.
      apply Forall_app. split; assumption.
  - rewrite !map_map. split; [|split; [|split]]; try reflexivity.
    apply Forall_forall. intros tr Hin.
    apply in_map_iff in Hin as (l & <- & _). split; reflexivity.
Qed.

(** ** Boxes *)

(** X12. [GetBoxes] returns the empty vector only when the backend has
    no iterator. With an iterator the body of its loop runs before the
    first [Next], so the vector holds at least one item. The same holds
    of what [GetBoundingBoxes] and [GetTextBoxes] return, for the
    iterator of the engine they leave. *)
Theorem boxes_empty_only_without_iterator B unit with_text cb this :
  Contract.is_nil (Cpp.GetBoxes unit with_text this)
  = negb (Contract.is_some (GetIterator (Cpp.tesseract_ this))) /\
  Contract.is_nil (fst (Cpp.GetBoundingBoxes B unit this))
  = negb (Contract.is_some
            (GetIterator
               (Cpp.tesseract_ (snd (Cpp.GetBoundingBoxes B unit this))))) /\
  Contract.is_nil (fst (fst (Cpp.GetTextBoxes B unit cb this)))
  = negb (Contract.is_some
            (GetIterator
               (Cpp.tesseract_ (snd (Cpp.GetTextBoxes B unit cb this))))).
Proof.
  assert (H : forall wt e,
             Contract.is_nil (Cpp.GetBoxes unit wt e)
             = negb (Contract.is_some (GetIterator (Cpp.tesseract_ e)))).
  { intros wt e. unfold Cpp.GetBoxes.
    destruct (GetIterator (Cpp.tesseract_ e)) as [iter|]; [|reflexivity].
    pose proof (GetBoxes_loop_grows unit wt
                  (Cpp.iterator_level_from_unit unit) iter []) as Hlen.
    destruct (Cpp.GetBoxes_loop _ _ _ _ _); [cbn in Hlen; lia|reflexivity]. }
  split; [apply H|]. split.
  - unfold Cpp.GetBoundingBoxes. cbn [fst snd]. apply H.
  - unfold Cpp.GetTextBoxes.
    destruct (Cpp.DoOCR B cb this) as [ev e]. cbn [fst snd]. apply H.
Qed.

(** X13. The items that [GetBoundingBoxes] and [GetTextBoxes] return
    are those of the regions of the page in reading order, one item
    for each line or for each word: their rectangles are the boxes of
    the regions, and the texts of [GetTextBoxes] are the texts of the
    regions. *)
Theorem boxes_in_reading_order B unit cb this :
  map rect (fst (Cpp.GetBoundingBoxes B unit this))
  = match page_res_ (Cpp.tesseract_ (snd (Cpp.GetBoundingBoxes B unit this)))
    with
    | None => []
    | Some p => Contract.region_boxes unit p
    end /\
  map rect (fst (fst (Cpp.GetTextBoxes B unit cb this)))
  = match page_res_ (Cpp.tesseract_ (snd (Cpp.GetTextBoxes B unit cb this)))
    with
    | None => []
    | Some p => Contract.region_boxes unit p
    end /\
  map text (fst (fst (Cpp.GetTextBoxes B unit cb this)))
  = match page_res_ (Cpp.tesseract_ (snd (Cpp.GetTextBoxes B unit cb this)))
    with
    | None => []
    | Some p => Contract.region_texts unit p
    end.
Proof.
  assert (H : forall wt e,
             map rect (Cpp.GetBoxes unit wt e)
             = match page_res_ (Cpp.tesseract_ e) with
               | None => []
               | Some p => Contract.region_boxes unit p
               end).
  { intros wt e. rewrite GetBoxes_page.
    destruct (page_res_ (Cpp.tesseract_ e)) as [p|]; [|reflexivity].
    destruct (page_items_regions unit wt p) as (R & _). exact R. }
  split; [|split].
  - unfold Cpp.GetBoundingBoxes. cbn [fst snd]. apply H.
  - unfold Cpp.GetTextBoxes.
    destruct (Cpp.DoOCR B cb this) as [ev e]. cbn [fst snd]. apply H.
  - unfold Cpp.GetTextBoxes.
    destruct (Cpp.DoOCR B cb this) as [ev e]. cbn [fst snd].
    rewrite GetBoxes_page.
    destruct (page_res_ (Cpp.tesseract_ e)) as [p|]; [|reflexivity].
    destruct (page_items_regions unit true p) as (_ & T & _). exact T.
Qed.

(** X14. After [GetTextBoxes], while the engine keeps its invariant
    that recognition implies layout, [GetBoundingBoxes] for the same
    unit runs no pass and leaves the engine as it is, and it returns
    the same rectangles and the same flags as [GetTextBoxes] did; its
    items carry no text and the confidence 0. *)
Theorem boxes_after_text_agree B unit cb this :
  (Cpp.ocr_done_ this = true -> Cpp.layout_analysis_done_ this = true) ->
  let text_boxes := fst (fst (Cpp.GetTextBoxes B unit cb this)) in
  let this1 := snd (Cpp.GetTextBoxes B unit cb this) in
  let boxes := fst (Cpp.GetBoundingBoxes B unit this1) in
  snd (Cpp.GetBoundingBoxes B unit this1) = this1 /\
  map rect boxes = map rect text_boxes /\
  map flags boxes = map flags text_boxes /\
  Forall Contract.without_text boxes.
Proof.
  intros Hinv. cbv zeta.
  assert (Hld : Cpp.layout_analysis_done_
                  (snd (Cpp.GetTextBoxes B unit cb this)) = true).
  { destruct this as [ld od t]. cbn in Hinv.
    unfold Cpp.GetTextBoxes, Cpp.DoOCR.
    destruct od; cbn; [auto|].
    destruct (Recognize B _ t); reflexivity. }
  assert (Hfst : fst (fst (Cpp.GetTextBoxes B unit cb this))
                 = Cpp.GetBoxes unit true
                     (snd (Cpp.GetTextBoxes B unit cb this))).
  { unfold Cpp.GetTextBoxes. destruct (Cpp.DoOCR B cb this); reflexivity. }
  rewrite Hfst.
  set (this1 := snd (Cpp.GetTextBoxes B unit cb this)) in *.
  unfold Cpp.GetBoundingBoxes. rewrite Hld. cbn [negb fst snd].
  rewrite !GetBoxes_page.
  destruct (page_res_ (Cpp.tesseract_ this1)) as [p|].
  - destruct (page_items_regions unit true p) as (R1 & _ & F1 & W).
    destruct (page_items_regions unit false p) as (R2 & _ & _ & _).
    rewrite R1, R2, F1. repeat split. exact W.
  - repeat split. constructor.
Qed.

(** An instance: the words of the two-line page. *)
Lemma boxes_after_text_agree_witness :
  (Cpp.ocr_done_ (Js._engine (Fixture.ready Fixture.page_image)) = true ->
   Cpp.layout_analysis_done_
     (Js._engine (Fixture.ready Fixture.page_image)) = true) /\
  map rect
    (fst (Cpp.GetBoundingBoxes Fixture.demo Word
            (snd (Cpp.GetTextBoxes Fixture.demo Word Fixture.handler
                    (Js._engine (Fixture.ready Fixture.page_image))))))
  = map rect
      (fst (fst (Cpp.GetTextBoxes Fixture.demo Word Fixture.handler
                   (Js._engine (Fixture.ready Fixture.page_image))))).
Proof.
  split; [exact (fun H => H)|].
  pose proof (boxes_after_text_agree Fixture.demo Word Fixture.handler
                (Js._engine (Fixture.ready Fixture.page_image))
                (fun H => H)) as (_ & H & _).
  exact H.
Defined.
End Results.

Section Native.
Import Cpp_types Backend Emscripten.

(** ** Orientation *)

(** X15. Whatever the detector answers, [GetOrientation] returns a
    rotation of 0, 90, 180 or 270 degrees, and a confidence that is 0,
    with the rotation 0, or 1. *)
Theorem orientation_is_a_quarter_turn B this :
  In (rotation (Cpp.GetOrientation B this)) Contract.quarter_turns /\
  (orientation_confidence (Cpp.GetOrientation B this) = Fp.f_0 /\
   rotation (Cpp.GetOrientation B this) = 0
   \/ orientation_confidence (Cpp.GetOrientation B this) = Fp.f_1).
Proof.
  unfold Cpp.GetOrientation, Contract.quarter_turns.
  destruct (pixOrientDetect B _ _ _) as [[had_error up_conf] left_conf].
  destruct (had_error =? 0); cbn [negb].
  - cbn [rotation orientation_confidence]. split; [|right; reflexivity].
    destruct (Fp.gt (Fp.double_of_float _) Fp.d_5_0);
      [destruct (Fp.gt up_conf _) | destruct (Fp.lt left_conf _)];
      cbn; auto.
  - split; [left; reflexivity | left; split; reflexivity].
Qed.

(** X16. When the difference [|up_conf| - |left_conf|] is not a number,
    as it is when the detector answers a NaN or two infinities, the
    comparison with 5.0 is false: the rotation is never 0 or 180, it is
    90 when [left_conf < 0] and 270 otherwise, and the confidence is
    still 1. *)
Theorem undefined_difference_selects_side_axis B this pix up_conf left_conf :
  GetThresholdedImage (Cpp.tesseract_ this) = Some pix ->
  orient_detect B pix = (0, up_conf, left_conf) ->
  Fp.fsub (Fp.fabs up_conf) (Fp.fabs left_conf) = S754_nan ->
  Cpp.GetOrientation B this
  = {| rotation := if Fp.lt left_conf Fp.f_0 then 90 else 270;
       orientation_confidence := Fp.f_1 |}.
Proof.
  intros Hpix Hdet Hnan. unfold Cpp.GetOrientation, pixOrientDetect.
  rewrite Hpix, Hdet, Hnan. reflexivity.
Qed.

(** An instance: the detector answers a NaN for [up_conf]. *)
Lemma undefined_difference_selects_side_axis_witness :
  Cpp.GetOrientation
    (Fixture.detector 0 S754_nan (Fp.float_of_int (-10)))
    (Js._engine (Fixture.with_image Fixture.page_image))
  = {| rotation := 90; orientation_confidence := Fp.f_1 |}.
Proof.
  exact (undefined_difference_selects_side_axis
           (Fixture.detector 0 S754_nan (Fp.float_of_int (-10)))
           (Js._engine (Fixture.with_image Fixture.page_image))
           {| pix_w := 1; pix_h := 1; pix_data := [3] |}
           S754_nan (Fp.float_of_int (-10)) eq_refl eq_refl eq_refl).
Defined.

(** ** Results of the native loads and of [SetVariable] *)

(** X17. The error text that [LoadModel], [LoadImage] and [SetVariable]
    return is empty exactly when the backend call went well; the text
    of [SetVariable] is not empty even for an empty variable name. None
    of the three changes an analysis flag when it fails; [LoadModel]
    and [SetVariable] change none when they succeed either, and
    [LoadImage] lowers both. *)
Theorem native_error_text_tells_failure B this model lang view name value :
  Js.error (fst (Cpp.LoadModel B model lang this))
  = negb (Init_result B (Bytes model) lang =? 0) /\
  Js.error (fst (Cpp.LoadImage B view this))
  = negb (Contract.is_some (pixReadMem B (Bytes view))) /\
  Js.error (fst (Cpp.SetVariable B name value this))
  = negb (accepts_variable B name value) /\
  Cpp.layout_analysis_done_ (snd (Cpp.LoadModel B model lang this))
  = Cpp.layout_analysis_done_ this /\
  Cpp.ocr_done_ (snd (Cpp.LoadModel B model lang this))
  = Cpp.ocr_done_ this /\
  Cpp.layout_analysis_done_ (snd (Cpp.SetVariable B name value this))
  = Cpp.layout_analysis_done_ this /\
  Cpp.ocr_done_ (snd (Cpp.SetVariable B name value this))
  = Cpp.ocr_done_ this /\
  Cpp.layout_analysis_done_ (snd (Cpp.LoadImage B view this))
  = Js.error (fst (Cpp.LoadImage B view this))
    && Cpp.layout_analysis_done_ this /\
  Cpp.ocr_done_ (snd (Cpp.LoadImage B view this))
  = Js.error (fst (Cpp.LoadImage B view this)) && Cpp.ocr_done_ this.
Proof.
  destruct this as [ld od t].
  unfold Cpp.LoadModel, Cpp.LoadImage, Cpp.SetVariable, Backend.SetVariable,
    Init, Cpp.set_tesseract.
  cbv zeta.
  destruct (Init_result B (Bytes model) lang =? 0) eqn:E;
    destruct (pixReadMem B (Bytes view));
    destruct (accepts_variable B name value);
    cbn; rewrite ?E; repeat split.
Qed.
End Native.
